(** * SimpleRealtimeChatbot (app.py): a shallow embedding and its properties

    The model follows the layout of [app.py]:
    - Python strings and the part of the [re] module the program uses;
    - [detect_intent], the intent handlers and [INTENT_HANDLERS];
    - the message log ([log_message]) and [respond], as state passing over
      a world with the table of messages, with the clock and the failures
      of I/O decided by an environment;
    - [ConnectionManager];
    - [json.loads] and the decoding of a frame in [websocket_endpoint].
    The notions the statements use come next, then the properties. *)

From Stdlib Require Import NArith ZArith QArith Ascii String Bool Lia.
From stdpp Require Import gmap list.

Local Open Scope N_scope.
Local Open Scope list_scope.

(** ** Python strings

    A Python [str] is a sequence of Unicode code points. *)

Abbreviation cp := N (only parsing).
Abbreviation str := (list N) (only parsing).

(** The code points of a literal of the source that has only ASCII
    characters. *)
Definition cps (s : string) : str :=
  List.map N_of_ascii (list_ascii_of_string s).

Definition is_ascii (c : cp) : Prop := c < 128.

Definition ascii_lower (c : cp) : cp :=
  if (65 <=? c) && (c <=? 90) then c + 32 else c.

Definition ascii_upper (c : cp) : cp :=
  if (97 <=? c) && (c <=? 122) then c - 32 else c.

(** [str.isspace] on the ASCII range: TAB, LF, VT, FF, CR, the four
    separators FS, GS, RS, US and the space. *)
Definition ascii_isspace (c : cp) : bool :=
  ((9 <=? c) && (c <=? 13)) || ((28 <=? c) && (c <=? 32)).

(** [\w] on the ASCII range: letters, digits and the underscore. *)
Definition ascii_isword (c : cp) : bool :=
  ((48 <=? c) && (c <=? 57)) || ((65 <=? c) && (c <=? 90))
  || ((97 <=? c) && (c <=? 122)) || (c =? 95).

(** The Unicode tables of the interpreter ([str.lower], [str.isspace] and
    the word characters of [re]) are not part of the program.  They are an
    interface here; all that is fixed is what they do on ASCII text. *)
Class Unicode := {
  str_lower : str -> str;
  isspace : cp -> bool;
  isword : cp -> bool;
  str_lower_ascii : forall s, Forall is_ascii s -> str_lower s = List.map ascii_lower s;
  isspace_ascii : forall c, is_ascii c -> isspace c = ascii_isspace c;
  isword_ascii : forall c, is_ascii c -> isword c = ascii_isword c
}.

(** An instance that leaves every code point above the ASCII range alone. *)
#[refine] Instance ascii_tables : Unicode := {|
  str_lower := List.map ascii_lower;
  isspace := ascii_isspace;
  isword := ascii_isword
|}.
Proof. all: reflexivity. Defined.

Fixpoint lstrip_with (sp : cp -> bool) (s : str) : str :=
  match s with
  | [] => []
  | c :: s' => if sp c then lstrip_with sp s' else s
  end.

Definition strip_with (sp : cp -> bool) (s : str) : str :=
  rev (lstrip_with sp (rev (lstrip_with sp s))).

(** ** Regular expressions

    The fragment of [re] syntax that occurs in the patterns of the
    program: literal characters, a character set, the word boundary, a
    group, concatenation and alternation. *)

Inductive regex : Type :=
| Chars (lit : str)
| CharSet (cs : list cp)
| WordB
| Group (r : regex)
| Seq (r1 r2 : regex)
| Or (r1 r2 : regex).

(** [r | r1 | ... | rn] *)
Fixpoint alts (r : regex) (rs : list regex) : regex :=
  match rs with
  | [] => r
  | r' :: rs' => Or r (alts r' rs')
  end.

(** A position in the subject: the character just before it, if any, and
    the text from it on. *)
Definition position : Type := option cp * str.

Definition word_opt (w : cp -> bool) (o : option cp) : bool :=
  match o with
  | Some c => w c
  | None => false
  end.

(** [\b]: exactly one of the two neighbours is a word character; the two
    ends of the subject count as non-word. *)
Definition at_boundary (w : cp -> bool) (p : position) : bool :=
  xorb (word_opt w (fst p)) (word_opt w (head (snd p))).

Fixpoint match_chars (lit : str) (p : position) : list position :=
  match lit with
  | [] => [p]
  | c :: lit' =>
      match snd p with
      | x :: rest => if x =? c then match_chars lit' (Some x, rest) else []
      | [] => []
      end
  end.

Definition match_set (cs : list cp) (p : position) : list position :=
  match snd p with
  | x :: rest => if existsb (N.eqb x) cs then [(Some x, rest)] else []
  | [] => []
  end.

(** All the positions at which a match of [r] that starts at [p] can end. *)
Fixpoint re_match (w : cp -> bool) (r : regex) (p : position) : list position :=
  match r with
  | Chars lit => match_chars lit p
  | CharSet cs => match_set cs p
  | WordB => if at_boundary w p then [p] else []
  | Group r1 => re_match w r1 p
  | Seq r1 r2 => flat_map (re_match w r2) (re_match w r1 p)
  | Or r1 r2 => re_match w r1 p ++ re_match w r2 p
  end.

Definition matches_at (w : cp -> bool) (r : regex) (p : position) : bool :=
  match re_match w r p with
  | [] => false
  | _ :: _ => true
  end.

Fixpoint search_from (w : cp -> bool) (r : regex) (prev : option cp) (s : str) : bool :=
  matches_at w r (prev, s) ||
  match s with
  | [] => false
  | c :: s' => search_from w r (Some c) s'
  end.

(** The truth value of [re.search(r, s)]: some match starts somewhere. *)
Definition search_with (w : cp -> bool) (r : regex) (s : str) : bool :=
  search_from w r None s.

(** ** Intent detection *)

(** The value [{"intent": ..., "confidence": ...}] that [detect_intent]
    returns.  The confidences are the decimal literals of the source. *)
Record Intent := { intent : str; confidence : Q }.

(** [\b(a|a1|...|an)\b] *)
Definition word_pattern (a : regex) (rest : list regex) : regex :=
  Seq WordB (Seq (Group (alts a rest)) WordB).

(** The characters of a literal, as a pattern. *)
Definition L (s : string) : regex := Chars (cps s).

Section Classifier.

Context {U : Unicode}.

Definition str_strip (s : str) : str := strip_with isspace s.

Definition re_search (r : regex) (s : str) : bool := search_with isword r s.

(** The six patterns of [detect_intent], in the order of the source. *)
Definition NETWORK_RE : regex :=
  word_pattern (L "signal")
    [L "network"; L "no service"; L "coverage"; L "latency";
     L "slow data"; L "dropped call"].

Definition ACCOUNT_RE : regex :=
  word_pattern (L "balance")
    [L "plan"; L "data left"; L "recharge";
     Seq (L "top") (Seq (CharSet (cps "- ")) (L "up")); L "bill"].

Definition SYMPTOM_RE : regex :=
  word_pattern (L "symptom")
    [L "fever"; L "cough"; L "pain"; L "headache"; L "nausea";
     L "shortness of breath"].

Definition APPOINTMENT_RE : regex :=
  word_pattern (L "appointment")
    [L "book appointment"; L "doctor"; L "visit"; L "schedule"].

Definition GREETING_RE : regex :=
  word_pattern (L "hi")
    [L "hello"; L "hey"; L "good morning"; L "good evening"].

Definition THANKS_RE : regex := word_pattern (L "thank") [L "thanks"].

Definition detect_intent (text : str) : Intent :=
  let t := str_strip (str_lower text) in
  if re_search NETWORK_RE t
  then {| intent := cps "network_issue"; confidence := 0.9 |}
  else if re_search ACCOUNT_RE t
  then {| intent := cps "account_query"; confidence := 0.9 |}
  else if re_search SYMPTOM_RE t
  then {| intent := cps "symptom_check"; confidence := 0.9 |}
  else if re_search APPOINTMENT_RE t
  then {| intent := cps "book_appointment"; confidence := 0.9 |}
  else if re_search GREETING_RE t
  then {| intent := cps "greeting"; confidence := 0.95 |}
  else if re_search THANKS_RE t
  then {| intent := cps "thanks"; confidence := 0.95 |}
  else {| intent := cps "fallback"; confidence := 0.5 |}.

End Classifier.


(** ** Python values

    The values [json.loads] builds, which are also the values a context
    can hold.  A number keeps its lexeme; a dict keeps its items in
    insertion order, with one item per key. *)
#[warnings="-register-all"] Inductive pyval : Type :=
| PyNone
| PyBool (b : bool)
| PyNum (lexeme : str)
| PyStr (s : str)
| PyList (items : list pyval)
| PyDict (items : list (str * pyval)).

(** [Dict[str, Any]] *)
Abbreviation Ctx := (gmap (list N) pyval) (only parsing).

(** The type of an intent handler. *)
Abbreviation Handler := (list N -> gmap (list N) pyval -> list N) (only parsing).

(** [d.get(k, dflt)] *)
Definition dict_get {V : Type} (d : gmap (list N) V) (k : str) (dflt : V) : V :=
  match d !! k with
  | Some v => v
  | None => dflt
  end.

(** ** Intent handlers *)

Section Handlers.

Context {U : Unicode}.

Definition handle_network_issue (text : str) (context : Ctx) : str :=
  if re_search (word_pattern (L "no service") [L "no signal"; L "no network"])
       (str_lower text)
  then cps "I understand you're seeing no network signal. Try: 1) toggle airplane mode off/on, "
       ++ cps "2) restart your device, 3) check for network outages in your area. "
       ++ cps "If the problem persists, reply with your area PIN or 'outage' to check further."
  else if re_search (word_pattern (L "slow") [L "latency"; L "slow data"])
       (str_lower text)
  then cps "Slow data can be caused by congestion. Try switching between 4G/3G, "
       ++ cps "closing background apps, or running a speed test. Want me to run a quick diagnostic?"
  else cps "Can you describe the network problem (e.g., no signal, slow data, dropped calls)?".

(** The rupee sign U+20B9 followed by the amount. *)
Definition fake_balance : str := 8377 :: cps "199.50".

Definition handle_account_query (text : str) (context : Ctx) : str :=
  cps "Your current prepaid balance is " ++ fake_balance
  ++ cps ". Would you like to recharge now?".

Definition handle_symptom_check (text : str) (context : Ctx) : str :=
  if re_search (word_pattern (L "fever") [L "temperature"]) (str_lower text)
  then cps "I see you mentioned fever. If temperature > 38" ++ 176 ::
       cps "C or you have breathing difficulty, "
       ++ cps "seek urgent care. For mild fever, rest, fluids and paracetamol are common. "
       ++ cps "Do you have other symptoms?"
  else if re_search (word_pattern (L "chest pain")
       [L "shortness of breath"; L "severe"; L "faint"]) (str_lower text)
  then cps "These symptoms can be serious. If you are in immediate danger, please call emergency services now."
  else cps "Tell me more about your symptoms (how long, severity). I can help suggest next steps or book a tele-appointment.".

Definition handle_book_appointment (text : str) (context : Ctx) : str :=
  cps "I can help book an appointment. Which date/time and specialty do you prefer? "
  ++ cps "Example: 'GP tomorrow morning' or 'Dermatology Nov 6 3pm'.".

Definition handle_greeting (text : str) (context : Ctx) : str :=
  cps "Hello! I can help with mobile network support, account queries, or basic health triage. How can I help today?".

(** The dash is U+2014. *)
Definition handle_thanks (text : str) (context : Ctx) : str :=
  cps "You're welcome " ++ 8212 :: cps " anything else I can help with?".

Definition handle_fallback (text : str) (context : Ctx) : str :=
  cps "Sorry, I didn't quite get that. Could you rephrase? "
  ++ cps "You can ask about 'network issue', 'check my balance', or 'I have a fever'.".

Definition INTENT_HANDLERS : gmap (list N) Handler :=
  list_to_map
    [ (cps "network_issue", handle_network_issue);
      (cps "account_query", handle_account_query);
      (cps "symptom_check", handle_symptom_check);
      (cps "book_appointment", handle_book_appointment);
      (cps "greeting", handle_greeting);
      (cps "thanks", handle_thanks);
      (cps "fallback", handle_fallback) ].

(** Lines 136-137 of [respond]: the handler of a label, [handle_fallback]
    when the label has none, applied to the message and the context. *)
Definition dispatch (label : str) (message : str) (context : Ctx) : str :=
  let handler := dict_get INTENT_HANDLERS label handle_fallback in
  handler message context.

End Handlers.

(** ** The world of the program and its effects

    What the program touches outside its own values: the rows of the table
    [messages] of [conversations.db], the dict [manager.active_connections],
    the text frames sent on the sockets, and two counters that say how many
    times the clock was read and how many fallible I/O steps were made. *)

(** The exceptions of the model, all of them subclasses of [Exception]:
    [DatabaseError] stands for whatever [sqlite3] raises, [WebSocketError]
    for whatever a socket raises on [accept] or [send_text]. *)
Inductive exn : Type :=
| JSONDecodeError
| RecursionError
| AttributeError
| KeyError
| DatabaseError
| WebSocketError.

Inductive outcome (A : Type) : Type :=
| Return (a : A)
| Raise (e : exn).
Arguments Return {A} a.
Arguments Raise {A} e.

(** A row of [messages]; the column [id] is the position of the row in
    the table, which only grows. *)
Record Row := {
  row_session_id : str;
  row_role : str;
  row_message : str;
  row_timestamp : str
}.

(** A connection handle; two handles are the same object when their
    identities are equal. *)
Record WebSocket := { ws_id : nat }.

Record World := {
  messages : list Row;
  active_connections : gmap (list N) WebSocket;
  outbox : list (WebSocket * list N);
  clock_reads : nat;
  io_steps : nat
}.

(** What the environment decides: the text of [datetime.utcnow().isoformat()]
    at each reading of the clock, and which of the fallible I/O steps (on the
    database or on a socket) fail. *)
Record Env := {
  utcnow_isoformat : nat -> str;
  io_fault : nat -> bool
}.

Definition M (A : Type) : Type := Env -> World -> outcome A * World.

Definition ret {A : Type} (a : A) : M A := fun _ w => (Return a, w).

Definition bind {A B : Type} (m : M A) (k : A -> M B) : M B :=
  fun env w =>
    match m env w with
    | (Return a, w') => k a env w'
    | (Raise e, w') => (Raise e, w')
    end.

Declare Scope py_scope.
Delimit Scope py_scope with py.
Notation "x <- m ;; k" := (bind m (fun x => k))
  (at level 100, m at next level, right associativity) : py_scope.
Notation "m ;; k" := (bind m (fun _ => k))
  (at level 100, right associativity) : py_scope.

(** A step that fails when the environment says so, with exception [e]. *)
Definition io_step (e : exn) : M unit :=
  fun env w =>
    let w' := {| messages := messages w;
                 active_connections := active_connections w;
                 outbox := outbox w;
                 clock_reads := clock_reads w;
                 io_steps := S (io_steps w) |} in
    if io_fault env (io_steps w) then (Raise e, w') else (Return tt, w').

Definition utcnow : M str :=
  fun env w =>
    (Return (utcnow_isoformat env (clock_reads w)),
     {| messages := messages w;
        active_connections := active_connections w;
        outbox := outbox w;
        clock_reads := S (clock_reads w);
        io_steps := io_steps w |}).

Definition insert_row (r : Row) : M unit :=
  fun _ w =>
    (Return tt,
     {| messages := messages w ++ [r];
        active_connections := active_connections w;
        outbox := outbox w;
        clock_reads := clock_reads w;
        io_steps := io_steps w |}).

(** ** The message log *)

(** [log_message]: open the database, read the clock for the fourth
    parameter, execute the INSERT, commit (the row is in the table from
    here on), close. *)
Definition log_message (session_id role message : str) : M unit :=
  (io_step DatabaseError ;;
   now <- utcnow ;;
   io_step DatabaseError ;;
   io_step DatabaseError ;;
   insert_row {| row_session_id := session_id; row_role := role;
                 row_message := message; row_timestamp := now |} ;;
   io_step DatabaseError)%py.

(** ** respond *)

(** The value [{"reply": ..., "intent": ..., "timestamp": ...}]. *)
Record Envelope := {
  reply : str;
  reply_intent : Intent;
  timestamp : str
}.

Section Respond.

Context {U : Unicode}.

Definition respond (message session_id : str) (context : option Ctx) : M Envelope :=
  (let context := match context with None => ∅ | Some c => c end in
   log_message session_id (cps "user") message ;;
   let intent_ := detect_intent message in
   let handler := dict_get INTENT_HANDLERS (intent intent_) handle_fallback in
   let reply_ := handler message context in
   log_message session_id (cps "bot") reply_ ;;
   now <- utcnow ;;
   ret {| reply := reply_; reply_intent := intent_; timestamp := now |})%py.

End Respond.

(** ** ConnectionManager *)

(** [d.pop(k)]: the value is removed and returned, [KeyError] when the key
    is absent. *)
Definition dict_pop {V : Type} (d : gmap (list N) V) (k : str) : outcome (V * gmap (list N) V) :=
  match d !! k with
  | Some v => Return (v, delete k d)
  | None => Raise KeyError
  end.

(** [d.pop(k, None)]: as [d.pop(k)], but an absent key gives [None] and the
    dict as it was. *)
Definition dict_pop_default {V : Type} (d : gmap (list N) V) (k : str)
  : outcome (option V * gmap (list N) V) :=
  match d !! k with
  | Some v => Return (Some v, delete k d)
  | None => Return (None, d)
  end.

Definition get_connections : M (gmap (list N) WebSocket) :=
  fun _ w => (Return (active_connections w), w).

Definition set_connections (d : gmap (list N) WebSocket) : M unit :=
  fun _ w =>
    (Return tt,
     {| messages := messages w;
        active_connections := d;
        outbox := outbox w;
        clock_reads := clock_reads w;
        io_steps := io_steps w |}).

Definition lift_outcome {A : Type} (o : outcome A) : M A := fun _ w => (o, w).

(** [await websocket.accept()] *)
Definition ws_accept (websocket : WebSocket) : M unit := io_step WebSocketError.

(** [await ws.send_text(message)] *)
Definition ws_send_text (ws : WebSocket) (message : str) : M unit :=
  (io_step WebSocketError ;;
   fun _ w =>
     (Return tt,
      {| messages := messages w;
         active_connections := active_connections w;
         outbox := outbox w ++ [(ws, message)];
         clock_reads := clock_reads w;
         io_steps := io_steps w |}))%py.

Definition connect (websocket : WebSocket) (session_id : str) : M unit :=
  (ws_accept websocket ;;
   d <- get_connections ;;
   set_connections (<[session_id := websocket]> d))%py.

Definition disconnect (session_id : str) : M unit :=
  (d <- get_connections ;;
   r <- lift_outcome (dict_pop_default d session_id) ;;
   set_connections (snd r))%py.

(** A connection object is true in a condition, so [if ws:] asks whether
    [get] found one.  The coroutine has no [return]: its value is [None]. *)
Definition send_personal_message (message session_id : str) : M pyval :=
  (d <- get_connections ;;
   match d !! session_id with
   | Some ws => (ws_send_text ws message ;; ret PyNone)
   | None => ret PyNone
   end)%py.

(** ** json.loads

    The decoder of the [json] module on a [str], as its documentation and
    [json/decoder.py] and [json/scanner.py] have it: strict mode, no
    hooks.  It is library code; the program only calls it. *)

Module Json.

Definition is_ws (c : cp) : bool :=
  (c =? 32) || (c =? 9) || (c =? 10) || (c =? 13).

Definition skip_ws (s : str) : str := lstrip_with is_ws s.

Definition is_digit (c : cp) : bool := (48 <=? c) && (c <=? 57).

Definition hex_digit (c : cp) : option N :=
  if (48 <=? c) && (c <=? 57) then Some (c - 48)
  else if (97 <=? c) && (c <=? 102) then Some (c - 87)
  else if (65 <=? c) && (c <=? 70) then Some (c - 55)
  else None.

Definition hex4 (a b c d : cp) : option N :=
  match hex_digit a, hex_digit b, hex_digit c, hex_digit d with
  | Some x, Some y, Some z, Some t => Some (((x * 16 + y) * 16 + z) * 16 + t)
  | _, _, _, _ => None
  end.

(** The one-character escapes of a string: the table [BACKSLASH]. *)
Definition backslash (esc : cp) : option cp :=
  if esc =? 34 then Some 34          (* quote *)
  else if esc =? 92 then Some 92     (* backslash *)
  else if esc =? 47 then Some 47     (* slash *)
  else if esc =? 98 then Some 8      (* b *)
  else if esc =? 102 then Some 12    (* f *)
  else if esc =? 110 then Some 10    (* n *)
  else if esc =? 114 then Some 13    (* r *)
  else if esc =? 116 then Some 9     (* t *)
  else None.

Definition is_high_surrogate (u : N) : bool := (55296 <=? u) && (u <=? 56319).
Definition is_low_surrogate (u : N) : bool := (56320 <=? u) && (u <=? 57343).

Definition join_surrogates (uni uni2 : N) : N :=
  65536 + N.lor (N.shiftl (uni - 55296) 10) (uni2 - 56320).

(** [s] begins with a backslash and a [u]. *)
Definition at_unicode_escape (s : str) : bool :=
  match s with
  | b :: u :: _ => (b =? 92) && (u =? 117)
  | _ => false
  end.

(** [scanstring], from the character after the opening quote: the decoded
    text (in reverse in [acc]) and what follows the closing quote.  A
    control character is refused (strict mode); a high surrogate followed
    by the escape of a low one gives the one character they encode. *)
Fixpoint scanstring (s : str) (acc : str) : option (str * str) :=
  match s with
  | [] => None
  | c :: s1 =>
      if c =? 34 then Some (rev acc, s1)
      else if c =? 92 then
        match s1 with
        | [] => None
        | esc :: s2 =>
            if esc =? 117 then
              match s2 with
              | a :: b :: c1 :: d :: s3 =>
                  match hex4 a b c1 d with
                  | None => None
                  | Some uni =>
                      if is_high_surrogate uni && at_unicode_escape s3 then
                        match s3 with
                        | _ :: _ :: a' :: b' :: c' :: d' :: s5 =>
                            match hex4 a' b' c' d' with
                            | None => None
                            | Some uni2 =>
                                if is_low_surrogate uni2
                                then scanstring s5 (join_surrogates uni uni2 :: acc)
                                else scanstring s3 (uni :: acc)
                            end
                        | _ => None
                        end
                      else scanstring s3 (uni :: acc)
                  end
              | _ => None
              end
            else
              match backslash esc with
              | Some ch => scanstring s2 (ch :: acc)
              | None => None
              end
        end
      else if c <? 32 then None
      else scanstring s1 (c :: acc)
  end.

Fixpoint span_digits (s : str) : str * str :=
  match s with
  | c :: s' =>
      if is_digit c then let '(ds, r) := span_digits s' in (c :: ds, r)
      else ([], s)
  | [] => ([], [])
  end.

(** [(\.\d+)?] *)
Definition scan_fraction (s : str) : str * str :=
  match s with
  | c :: r =>
      if c =? 46 then
        match span_digits r with
        | ([], _) => ([], s)
        | (ds, r') => (c :: ds, r')
        end
      else ([], s)
  | [] => ([], s)
  end.

(** [([eE][-+]?\d+)?] *)
Definition scan_exponent (s : str) : str * str :=
  match s with
  | e :: r =>
      if (e =? 101) || (e =? 69) then
        let '(esign, r1) :=
          match r with
          | c :: r' => if (c =? 45) || (c =? 43) then ([c], r') else ([], r)
          | [] => ([], r)
          end in
        match span_digits r1 with
        | ([], _) => ([], s)
        | (ds, r') => (e :: esign ++ ds, r')
        end
      else ([], s)
  | [] => ([], s)
  end.

(** [NUMBER_RE]: an optional minus sign, then a zero or a digit from 1 to
    9 with any digits after it, then the optional fraction and exponent. *)
Definition scan_number (s : str) : option (str * str) :=
  let '(sign, s1) :=
    match s with
    | c :: s' => if c =? 45 then ([c], s') else ([], s)
    | [] => ([], s)
    end in
  match s1 with
  | [] => None
  | d :: s2 =>
      if is_digit d then
        let '(int_digits, s3) :=
          if d =? 48 then ([d], s2)
          else let '(ds, r) := span_digits s2 in (d :: ds, r) in
        let '(frac, s4) := scan_fraction s3 in
        let '(expo, s5) := scan_exponent s4 in
        Some (sign ++ int_digits ++ frac ++ expo, s5)
      else None
  end.

(** [s] starts with the characters of [lit]: what follows them. *)
Fixpoint after_prefix (lit s : str) : option str :=
  match lit, s with
  | [], _ => Some s
  | c :: lit', x :: s' => if x =? c then after_prefix lit' s' else None
  | _ :: _, [] => None
  end.

Fixpoint assoc_set (items : list (list N * pyval)) (k : str) (v : pyval)
  : list (list N * pyval) :=
  match items with
  | [] => [(k, v)]
  | (k', v') :: items' =>
      if decide (k' = k) then (k', v) :: items'
      else (k', v') :: assoc_set items' k v
  end.

(** [dict(pairs)]: a later pair with the same key replaces the value. *)
Definition dict_of_pairs (pairs : list (list N * pyval)) : list (list N * pyval) :=
  fold_left (fun d kv => assoc_set d (fst kv) (snd kv)) pairs [].

Inductive scan_error : Type :=
| Malformed
| TooDeep.

(** The values that are neither strings nor containers, in the order in
    which [scan_once] tries them. *)
Definition scan_constant (s : str) : scan_error + (pyval * list N) :=
  match after_prefix (cps "null") s with
  | Some r => inr (PyNone, r)
  | None =>
  match after_prefix (cps "true") s with
  | Some r => inr (PyBool true, r)
  | None =>
  match after_prefix (cps "false") s with
  | Some r => inr (PyBool false, r)
  | None =>
  match scan_number s with
  | Some (lexeme, r) => inr (PyNum lexeme, r)
  | None =>
  match after_prefix (cps "NaN") s with
  | Some r => inr (PyNum (cps "NaN"), r)
  | None =>
  match after_prefix (cps "Infinity") s with
  | Some r => inr (PyNum (cps "Infinity"), r)
  | None =>
  match after_prefix (cps "-Infinity") s with
  | Some r => inr (PyNum (cps "-Infinity"), r)
  | None => inl Malformed
  end end end end end end end.

(** [scan_once], [JSONObject] after the quote that opens a key and
    [JSONArray] at a value.  [depth] is how many more containers the stack
    of the interpreter lets the decoder enter; [fuel] bounds the number of
    calls and has no counterpart in the library. *)
Fixpoint scan_once (fuel depth : nat) (s : str) : scan_error + (pyval * list N) :=
  match fuel with
  | O => inl Malformed
  | S fuel' =>
      match s with
      | [] => inl Malformed
      | c :: s' =>
          if c =? 34 then
            match scanstring s' [] with
            | Some (text, r) => inr (PyStr text, r)
            | None => inl Malformed
            end
          else if c =? 123 then
            match depth with
            | O => inl TooDeep
            | S depth' =>
                match skip_ws s' with
                | [] => inl Malformed
                | x :: r =>
                    if x =? 125 then inr (PyDict [], r)
                    else if x =? 34 then object_pairs fuel' depth' r []
                    else inl Malformed
                end
            end
          else if c =? 91 then
            match depth with
            | O => inl TooDeep
            | S depth' =>
                match skip_ws s' with
                | [] => inl Malformed
                | x :: r =>
                    if x =? 93 then inr (PyList [], r)
                    else array_values fuel' depth' (x :: r) []
                end
            end
          else scan_constant s
      end
  end
with object_pairs (fuel depth : nat) (s : str) (pairs : list (list N * pyval))
  : scan_error + (pyval * list N) :=
  match fuel with
  | O => inl Malformed
  | S fuel' =>
      match scanstring s [] with
      | None => inl Malformed
      | Some (key, s1) =>
          match skip_ws s1 with
          | [] => inl Malformed
          | colon :: s2 =>
              if colon =? 58 then
                match scan_once fuel' depth (skip_ws s2) with
                | inl e => inl e
                | inr (value, s3) =>
                    let pairs' := pairs ++ [(key, value)] in
                    match skip_ws s3 with
                    | [] => inl Malformed
                    | x :: s4 =>
                        if x =? 125 then inr (PyDict (dict_of_pairs pairs'), s4)
                        else if x =? 44 then
                          match skip_ws s4 with
                          | [] => inl Malformed
                          | q :: s5 =>
                              if q =? 34 then object_pairs fuel' depth s5 pairs'
                              else inl Malformed
                          end
                        else inl Malformed
                    end
                end
              else inl Malformed
          end
      end
  end
with array_values (fuel depth : nat) (s : str) (values : list pyval)
  : scan_error + (pyval * list N) :=
  match fuel with
  | O => inl Malformed
  | S fuel' =>
      match scan_once fuel' depth s with
      | inl e => inl e
      | inr (value, s1) =>
          let values' := values ++ [value] in
          match skip_ws s1 with
          | [] => inl Malformed
          | x :: s2 =>
              if x =? 93 then inr (PyList values', s2)
              else if x =? 44 then array_values fuel' depth (skip_ws s2) values'
              else inl Malformed
          end
      end
  end.

(** The text begins with a byte order mark. *)
Definition has_bom (s : str) : bool :=
  match s with
  | c :: _ => c =? 65279
  | [] => false
  end.

(** [json.loads(s)]: a leading byte order mark is refused, white space
    around the one value is skipped, nothing may follow it. *)
Definition loads (depth : nat) (s : str) : outcome pyval :=
  if has_bom s then Raise JSONDecodeError
  else
    match scan_once (S (2 * length s)) depth (skip_ws s) with
    | inl TooDeep => Raise RecursionError
    | inl Malformed => Raise JSONDecodeError
    | inr (obj, r) =>
        match skip_ws r with
        | [] => Return obj
        | _ :: _ => Raise JSONDecodeError
        end
    end.

End Json.

(** ** Decoding an inbound frame *)

Fixpoint assoc_get (items : list (list N * pyval)) (k : str) (dflt : pyval) : pyval :=
  match items with
  | [] => dflt
  | (k', v) :: items' => if decide (k' = k) then v else assoc_get items' k dflt
  end.

(** [payload.get(key, dflt)]: only a dict has the method. *)
Definition py_get (payload : pyval) (key : str) (dflt : pyval) : outcome pyval :=
  match payload with
  | PyDict items => Return (assoc_get items key dflt)
  | _ => Raise AttributeError
  end.

(** [try: body  except Exception: handler]; every exception of the model is
    an [Exception]. *)
Definition try_except {A : Type} (body : outcome A) (handler : exn -> outcome A) : outcome A :=
  match body with
  | Return a => Return a
  | Raise e => handler e
  end.

(** Lines 183-187 of [websocket_endpoint]: the value bound to [message]
    for the frame [data]. *)
Definition frame_message (depth : nat) (data : str) : outcome pyval :=
  try_except
    (match Json.loads depth data with
     | Return payload => py_get payload (cps "message") (PyStr [])
     | Raise e => Raise e
     end)
    (fun _ => Return (PyStr data)).

(** ** The entry points

    [chat_endpoint] from the parsed body of the request on, and the two
    parts of [websocket_endpoint] around the reception of a frame.
    [respond] is typed on strings and the rows of the model hold text: a
    call with a field that is not a string is outside the model, and the
    result is then [None]. *)

Section Endpoints.

Context {U : Unicode}.

(** Lines 149-151 of [chat_endpoint]: [body] is the value of
    [await request.json()]. *)
Definition chat_endpoint (body : pyval) : option (M Envelope) :=
  match py_get body (cps "message") (PyStr []) with
  | Raise e => Some (lift_outcome (Raise e))
  | Return message =>
      match py_get body (cps "session_id") (PyStr (cps "guest")) with
      | Raise e => Some (lift_outcome (Raise e))
      | Return session_id =>
          match message, session_id with
          | PyStr m, PyStr sid => Some (respond m sid None)
          | _, _ => None
          end
      end
  end.

(** The serialisation is library code: [float_repr] is the text of a
    float, [json_dumps] is [json.dumps]. *)
Variable float_repr : Q -> list N.
Variable json_dumps : pyval -> list N.

(** The dict [respond] returns, as [json.dumps] receives it. *)
Definition envelope_value (e : Envelope) : pyval :=
  PyDict
    [ (cps "reply", PyStr (reply e));
      (cps "intent",
       PyDict [ (cps "intent", PyStr (intent (reply_intent e)));
                (cps "confidence", PyNum (float_repr (confidence (reply_intent e)))) ]);
      (cps "timestamp", PyStr (timestamp e)) ].

(** The dict of the welcome frame. *)
Definition welcome_value (session_id : str) : pyval :=
  PyDict
    [ (cps "reply",
       PyStr (cps "Connected to SimpleRealtimeChatbot as " ++ session_id
              ++ cps ". Say hi!")) ].

(** Lines 175-179 of [websocket_endpoint]: register the socket, then send
    the welcome frame to the session. *)
Definition websocket_open (websocket : WebSocket) (session_id : str) : M pyval :=
  (connect websocket session_id ;;
   send_personal_message (json_dumps (welcome_value session_id)) session_id)%py.

(** Lines 183-190 of [websocket_endpoint]: one turn of the loop, for the
    frame [data] that [receive_text] returned. *)
Definition websocket_turn (depth : nat) (session_id data : str) : option (M pyval) :=
  match frame_message depth data with
  | Return (PyStr message) =>
      Some (result <- respond message session_id None ;;
            send_personal_message (json_dumps (envelope_value result)) session_id)%py
  | _ => None
  end.

End Endpoints.

(** * The notions of the statements *)

(** ** Labels, handlers and the rule table

    [RULES] is the ordered list of (pattern, label, confidence) rules of the
    specification, and [classify] the classification it describes: the first
    rule whose pattern is found in the text, or the fallback. *)

Definition LABELS : list (list N) :=
  [cps "network_issue"; cps "account_query"; cps "symptom_check";
   cps "book_appointment"; cps "greeting"; cps "thanks"; cps "fallback"].

Definition HANDLERS {U : Unicode} : list Handler :=
  [handle_network_issue; handle_account_query; handle_symptom_check;
   handle_book_appointment; handle_greeting; handle_thanks; handle_fallback].

Record Rule := { rule_pattern : regex; rule_label : list N; rule_confidence : Q }.

Definition RULES : list Rule :=
  [ {| rule_pattern := NETWORK_RE; rule_label := cps "network_issue"; rule_confidence := 0.9 |};
    {| rule_pattern := ACCOUNT_RE; rule_label := cps "account_query"; rule_confidence := 0.9 |};
    {| rule_pattern := SYMPTOM_RE; rule_label := cps "symptom_check"; rule_confidence := 0.9 |};
    {| rule_pattern := APPOINTMENT_RE; rule_label := cps "book_appointment"; rule_confidence := 0.9 |};
    {| rule_pattern := GREETING_RE; rule_label := cps "greeting"; rule_confidence := 0.95 |};
    {| rule_pattern := THANKS_RE; rule_label := cps "thanks"; rule_confidence := 0.95 |} ].

Definition rule_intent (r : Rule) : Intent :=
  {| intent := rule_label r; confidence := rule_confidence r |}.

Definition FALLBACK : Intent := {| intent := cps "fallback"; confidence := 0.5 |}.

Definition classify {U : Unicode} (text : list N) : Intent :=
  match List.find (fun r => re_search (rule_pattern r) (str_strip (str_lower text))) RULES with
  | Some r => rule_intent r
  | None => FALLBACK
  end.

(** A position all of whose characters satisfy [P]. *)
Definition pos_ok (P : N -> Prop) (p : position) : Prop :=
  match fst p with Some c => P c | None => True end /\ Forall P (snd p).

(** ** What a pattern matches

    The character before a position that lies after the text [mid], when
    the character before [mid] was [prev]. *)
Definition last_of (prev : option N) (mid : list N) : option N :=
  match last mid with
  | Some c => Some c
  | None => prev
  end.

(** [matches w r prev mid post]: in a subject in which [mid] is preceded by
    the character [prev] (if any) and followed by [post], the pattern [r]
    matches exactly the text [mid]. *)
Inductive matches (w : N -> bool) : regex -> option N -> list N -> list N -> Prop :=
| matches_chars (lit : list N) (prev : option N) (post : list N) :
    matches w (Chars lit) prev lit post
| matches_set (cs : list N) (c : N) (prev : option N) (post : list N) :
    In c cs -> matches w (CharSet cs) prev [c] post
| matches_boundary (prev : option N) (post : list N) :
    at_boundary w (prev, post) = true -> matches w WordB prev [] post
| matches_group (r : regex) (prev : option N) (mid post : list N) :
    matches w r prev mid post -> matches w (Group r) prev mid post
| matches_seq (r1 r2 : regex) (prev : option N) (m1 m2 post : list N) :
    matches w r1 prev m1 (m2 ++ post) ->
    matches w r2 (last_of prev m1) m2 post ->
    matches w (Seq r1 r2) prev (m1 ++ m2) post
| matches_or_left (r1 r2 : regex) (prev : option N) (mid post : list N) :
    matches w r1 prev mid post -> matches w (Or r1 r2) prev mid post
| matches_or_right (r1 r2 : regex) (prev : option N) (mid post : list N) :
    matches w r2 prev mid post -> matches w (Or r1 r2) prev mid post.

(** An occurrence of [r] in [s] between two word boundaries: [s] is
    [pre ++ mid ++ post], [r] matches [mid], and there is a boundary on
    each side of [mid]. *)
Definition word_occurrence (w : N -> bool) (r : regex) (s : list N) : Prop :=
  exists pre mid post : list N,
    s = pre ++ mid ++ post
    /\ at_boundary w (last pre, mid ++ post) = true
    /\ matches w r (last pre) mid post
    /\ at_boundary w (last_of (last pre) mid, post) = true.

(** ** Runs of [log_message] and [respond] *)

(** None of the [count] fallible steps from step [from] on fails. *)
Definition no_fault (env : Env) (from count : nat) : Prop :=
  forall i : nat, (i < count)%nat -> io_fault env (from + i)%nat = false.

Definition user_row (session_id message now : list N) : Row :=
  {| row_session_id := session_id; row_role := cps "user";
     row_message := message; row_timestamp := now |}.

Definition bot_row (session_id message now : list N) : Row :=
  {| row_session_id := session_id; row_role := cps "bot";
     row_message := message; row_timestamp := now |}.

Definition context_or_empty (context : option (gmap (list N) pyval)) : gmap (list N) pyval :=
  match context with None => ∅ | Some c => c end.

(** The world after a [log_message] that returned. *)
Definition logged (env : Env) (w : World) (session_id role message : list N) : World :=
  {| messages := messages w ++
       [ {| row_session_id := session_id; row_role := role;
            row_message := message;
            row_timestamp := utcnow_isoformat env (clock_reads w) |} ];
     active_connections := active_connections w;
     outbox := outbox w;
     clock_reads := S (clock_reads w);
     io_steps := 4 + io_steps w |}.

(** A world with an empty log and no connection, and an environment in
    which nothing fails and the clock shows the number of its readings. *)
Definition empty_world : World :=
  {| messages := []; active_connections := ∅; outbox := [];
     clock_reads := 0; io_steps := 0 |}.

Definition calm_env : Env :=
  {| utcnow_isoformat := fun n => cps "2025-01-01T00:00:0" ++ [48 + N.of_nat n];
     io_fault := fun _ => false |}.

(** The envelope of a call that returned. *)
Definition returned (r : outcome Envelope * World) : Envelope :=
  match fst r with
  | Return e => e
  | Raise _ => {| reply := []; reply_intent := FALLBACK; timestamp := [] |}
  end.

Definition first_call : outcome Envelope * World :=
  @respond ascii_tables (cps "my bill") (cps "s1") None calm_env empty_world.

Definition second_call : outcome Envelope * World :=
  @respond ascii_tables (cps "my bill") (cps "s1")
    (Some {[ cps "plan" := PyStr (cps "gold") ]}) calm_env (snd first_call).

(** ** Runs of the manager *)

(** The world after one more fallible step. *)
Definition stepped (w : World) : World :=
  {| messages := messages w;
     active_connections := active_connections w;
     outbox := outbox w;
     clock_reads := clock_reads w;
     io_steps := S (io_steps w) |}.

(** The handles the registry holds for a session id: the values of the
    items of [active_connections] whose key is the id. *)
Definition handles_of (session_id : list N) (w : World) : list WebSocket :=
  (filter (fun kv => kv.1 = session_id) (map_to_list (active_connections w))).*2.

(** A call on the manager. *)
Inductive manager_call : Type :=
| CallConnect (websocket : WebSocket) (session_id : list N)
| CallDisconnect (session_id : list N)
| CallSend (message session_id : list N).

(** The world after a call, whether it returned or raised. *)
Definition after_call (env : Env) (w : World) (c : manager_call) : World :=
  match c with
  | CallConnect websocket session_id => snd (connect websocket session_id env w)
  | CallDisconnect session_id => snd (disconnect session_id env w)
  | CallSend message session_id => snd (send_personal_message message session_id env w)
  end.

Definition after_calls (env : Env) (w : World) (calls : list manager_call) : World :=
  fold_left (after_call env) calls w.

(** Whether a call returns (rather than raises). *)
Definition call_returns (env : Env) (w : World) (c : manager_call) : bool :=
  match c with
  | CallConnect websocket session_id =>
      match fst (connect websocket session_id env w) with
      | Return _ => true | Raise _ => false end
  | CallDisconnect session_id =>
      match fst (disconnect session_id env w) with
      | Return _ => true | Raise _ => false end
  | CallSend message session_id =>
      match fst (send_personal_message message session_id env w) with
      | Return _ => true | Raise _ => false end
  end.

(** The calls of a run, each with whether it returned. *)
Fixpoint history (env : Env) (w : World) (calls : list manager_call)
  : list (manager_call * bool) :=
  match calls with
  | [] => []
  | c :: calls' => (c, call_returns env w c) :: history env (after_call env w c) calls'
  end.

(** The state of one session id along a history: a [connect] for the id
    that returned makes its handle the current one, a [disconnect] for the
    id leaves none, every other event leaves the state as it is. *)
Definition track (session_id : list N) (current : option WebSocket)
    (event : manager_call * bool) : option WebSocket :=
  match event with
  | (CallConnect websocket sid, true) =>
      if decide (sid = session_id) then Some websocket else current
  | (CallDisconnect sid, _) =>
      if decide (sid = session_id) then None else current
  | _ => current
  end.

(** The claim of the specification on the value of a send at one input:
    a boolean, true exactly when a handle is registered for the id. *)
Definition send_tells_whether_found (message session_id : list N)
    (env : Env) (w : World) : Prop :=
  exists b : bool,
    fst (send_personal_message message session_id env w) = Return (PyBool b)
    /\ (b = true <-> is_Some (active_connections w !! session_id)).

(** A world in which the handle 1 is registered for "s1". *)
Definition one_session_world : World :=
  {| messages := [];
     active_connections := {[ cps "s1" := {| ws_id := 1 |} ]};
     outbox := []; clock_reads := 0; io_steps := 0 |}.

(** ** Frames *)

(** [items[k]] when the key is there. *)
Fixpoint assoc_find (items : list (list N * pyval)) (k : list N) : option pyval :=
  match items with
  | [] => None
  | (k', v) :: items' => if decide (k' = k) then Some v else assoc_find items' k
  end.

(** The rule of the specification for one frame: the [message] field of a
    frame that is a JSON object with such a field, the raw frame in every
    other case. *)
Definition frame_rule_as_stated (depth : nat) (data : list N) : Prop :=
  frame_message depth data
  = Return match Json.loads depth data with
           | Return (PyDict items) =>
               match assoc_find items (cps "message") with
               | Some v => v
               | None => PyStr data
               end
           | _ => PyStr data
           end.

(** The frame [{"message":"hi"}], the quotes written as code points. *)
Definition hi_frame : list N :=
  cps "{" ++ 34 :: cps "message" ++ 34 :: cps ":" ++ 34 :: cps "hi" ++ 34 :: cps "}".

(** ** Replies, calls of the application and faults *)

(** The replies the handlers can give, each with the label of its
    handler. *)
Definition CANNED : list (list N * list N) :=
  [ (cps "network_issue",
     cps "I understand you're seeing no network signal. Try: 1) toggle airplane mode off/on, 2) restart your device, 3) check for network outages in your area. If the problem persists, reply with your area PIN or 'outage' to check further.");
    (cps "network_issue",
     cps "Slow data can be caused by congestion. Try switching between 4G/3G, closing background apps, or running a speed test. Want me to run a quick diagnostic?");
    (cps "network_issue",
     cps "Can you describe the network problem (e.g., no signal, slow data, dropped calls)?");
    (cps "account_query",
     cps "Your current prepaid balance is " ++ fake_balance
     ++ cps ". Would you like to recharge now?");
    (cps "symptom_check",
     cps "I see you mentioned fever. If temperature > 38" ++ 176 ::
     cps "C or you have breathing difficulty, seek urgent care. For mild fever, rest, fluids and paracetamol are common. Do you have other symptoms?");
    (cps "symptom_check",
     cps "These symptoms can be serious. If you are in immediate danger, please call emergency services now.");
    (cps "symptom_check",
     cps "Tell me more about your symptoms (how long, severity). I can help suggest next steps or book a tele-appointment.");
    (cps "book_appointment",
     cps "I can help book an appointment. Which date/time and specialty do you prefer? Example: 'GP tomorrow morning' or 'Dermatology Nov 6 3pm'.");
    (cps "greeting",
     cps "Hello! I can help with mobile network support, account queries, or basic health triage. How can I help today?");
    (cps "thanks",
     cps "You're welcome " ++ 8212 :: cps " anything else I can help with?");
    (cps "fallback",
     cps "Sorry, I didn't quite get that. Could you rephrase? You can ask about 'network issue', 'check my balance', or 'I have a fever'.") ].

(** A call of the application: [respond], or a call on the manager. *)
Inductive app_call : Type :=
| CallRespond (message session_id : list N) (context : option (gmap (list N) pyval))
| CallManager (c : manager_call).

(** The world after a call of the application, whether it returned or
    raised. *)
Definition after_app_call {U : Unicode} (env : Env) (w : World) (c : app_call) : World :=
  match c with
  | CallRespond message session_id context =>
      snd (respond message session_id context env w)
  | CallManager c' => after_call env w c'
  end.

Definition after_app_calls {U : Unicode} (env : Env) (w : World)
    (calls : list app_call) : World :=
  fold_left (after_app_call env) calls w.

(** The rows have the role [user] or [bot]. *)
Definition roles_ok (rows : list Row) : Prop :=
  Forall (fun r => row_role r = cps "user" \/ row_role r = cps "bot") rows.

(** The first of the fallible steps from [from] on that fails is step
    [from + k]. *)
Definition first_fault (env : Env) (from k : nat) : Prop :=
  no_fault env from k /\ io_fault env (from + k)%nat = true.

(** An environment in which exactly the step [k] fails. *)
Definition fault_at (k : nat) : Env :=
  {| utcnow_isoformat := utcnow_isoformat calm_env;
     io_fault := fun n => Nat.eqb n k |}.

(** A world with rows in the log and two sessions registered. *)
Definition busy_world : World :=
  {| messages := [user_row (cps "s0") (cps "hi") (cps "t0");
                  bot_row (cps "s0") (cps "hello") (cps "t1")];
     active_connections :=
       <[ cps "s1" := {| ws_id := 1 |} ]> {[ cps "s2" := {| ws_id := 2 |} ]};
     outbox := []; clock_reads := 2; io_steps := 8 |}.

(** The first call of the witnesses, in capital letters. *)
Definition shouted_call : outcome Envelope * World :=
  @respond ascii_tables (List.map ascii_upper (cps "my bill")) (cps "s1") None
    calm_env empty_world.

(** All the characters are ASCII white space. *)
Definition ascii_blank (s : list N) : Prop :=
  Forall (fun c => ascii_isspace c = true) s.

(** The value of a field of an object that is absent or holds a string. *)
Definition str_field (items : list (list N * pyval)) (key dflt : list N) : option (list N) :=
  match assoc_find items key with
  | None => Some dflt
  | Some (PyStr s) => Some s
  | Some _ => None
  end.

(** The session, the role and the text of a row. *)
Definition row_content (r : Row) : list N * list N * list N :=
  (row_session_id r, row_role r, row_message r).

(** What a call of the application adds to the log when nothing fails: a
    call of [respond] its two rows, a call of the manager nothing. *)
Definition expected_rows {U : Unicode} (c : app_call) : list (list N * list N * list N) :=
  match c with
  | CallRespond message session_id context =>
      [ (session_id, cps "user", message);
        (session_id, cps "bot",
         dispatch (intent (detect_intent message)) message (context_or_empty context)) ]
  | CallManager _ => []
  end.

(** The session id a call on the manager names. *)
Definition call_session (c : manager_call) : list N :=
  match c with
  | CallConnect _ session_id => session_id
  | CallDisconnect session_id => session_id
  | CallSend _ session_id => session_id
  end.

(** Stand-ins for the serialisation in the witnesses: the float as a
    blank, a value as the text [v]. *)
Definition sample_float_repr (q : Q) : list N := cps "0".

Definition sample_json_dumps (v : pyval) : list N := cps "v".

(** * Properties *)

(** ** The labels and the handlers *)

Section HandlerFacts.

Context {U : Unicode}.

Lemma detect_intent_cases (text : str) :
  In (intent (detect_intent text), confidence (detect_intent text))
     [(cps "network_issue", 0.9%Q); (cps "account_query", 0.9%Q);
      (cps "symptom_check", 0.9%Q); (cps "book_appointment", 0.9%Q);
      (cps "greeting", 0.95%Q); (cps "thanks", 0.95%Q);
      (cps "fallback", 0.5%Q)].
Proof.
  unfold detect_intent.
  repeat (match goal with
          | |- context [if re_search ?r ?t then _ else _] =>
              destruct (re_search r t)
          end; [cbn [intent confidence In]; tauto |]).
  cbn [intent confidence In]; tauto.
Qed.

Lemma detect_intent_label (text : str) : In (intent (detect_intent text)) LABELS.
Proof.
  pose proof (detect_intent_cases text) as H.
  cbn [In] in H. unfold LABELS. cbn [In].
  repeat (destruct H as [H | H]; [inversion H; tauto |]). destruct H.
Qed.

Lemma lookup_handler (label : str) (h : Handler) :
  INTENT_HANDLERS !! label = Some h -> In label LABELS /\ In h HANDLERS.
Proof.
  intros E. unfold INTENT_HANDLERS in E.
  apply elem_of_list_to_map_2 in E.
  apply list_elem_of_In in E. cbn [In] in E.
  unfold LABELS, HANDLERS. cbn [In].
  repeat (destruct E as [E | E]; [inversion E; subst; tauto |]). destruct E.
Qed.

Lemma lookup_label (label : str) :
  In label LABELS -> exists h, INTENT_HANDLERS !! label = Some h.
Proof.
  intros Hin.
  destruct (INTENT_HANDLERS !! label) as [h |] eqn:E; [eauto |].
  exfalso. unfold INTENT_HANDLERS in E.
  apply not_elem_of_list_to_map_2 in E. apply E.
  apply list_elem_of_In. exact Hin.
Qed.

Lemma lookup_unlisted (label : str) :
  ~ In label LABELS -> INTENT_HANDLERS !! label = None.
Proof.
  intros Hn. unfold INTENT_HANDLERS. apply not_elem_of_list_to_map_1.
  intros Hin. apply Hn. apply list_elem_of_In. exact Hin.
Qed.

(** Whatever the label, the handler [respond] picks is one of the seven. *)
Lemma chosen_handler (label : str) :
  In (dict_get INTENT_HANDLERS label handle_fallback) HANDLERS.
Proof.
  unfold dict_get. destruct (INTENT_HANDLERS !! label) as [h |] eqn:E.
  - apply lookup_handler in E. tauto.
  - unfold HANDLERS. cbn [In]. tauto.
Qed.

Lemma handlers_nonempty (h : Handler) (text : str) (context : gmap (list N) pyval) :
  In h HANDLERS -> h text context <> [].
Proof.
  unfold HANDLERS. cbn [In].
  intros [<- | [<- | [<- | [<- | [<- | [<- | [<- | []]]]]]]];
    unfold handle_network_issue, handle_account_query, handle_symptom_check,
      handle_book_appointment, handle_greeting, handle_thanks, handle_fallback;
    repeat (match goal with
            | |- context [if re_search ?r ?t then _ else _] =>
                destruct (re_search r t)
            end);
    discriminate.
Qed.

Lemma handlers_ignore_context (h : Handler) (text : str) (c1 c2 : gmap (list N) pyval) :
  In h HANDLERS -> h text c1 = h text c2.
Proof.
  unfold HANDLERS. cbn [In].
  intros [<- | [<- | [<- | [<- | [<- | [<- | [<- | []]]]]]]]; reflexivity.
Qed.

End HandlerFacts.

(** ** Text on which two character tables agree

    Stripping and searching look at the tables only at the characters of
    the subject, so two tables that agree there give the same result. *)

Section Agreement.

Variables (f g : N -> bool) (P : N -> Prop).

Hypothesis agree : forall c, P c -> f c = g c.

Lemma lstrip_with_Forall (sp : N -> bool) (s : list N) :
  Forall P s -> Forall P (lstrip_with sp s).
Proof.
  induction 1 as [| c s Hc Hs IH]; cbn; [constructor |].
  destruct (sp c); [exact IH | constructor; assumption].
Qed.

Lemma lstrip_with_ext (s : list N) :
  Forall P s -> lstrip_with f s = lstrip_with g s.
Proof.
  induction 1 as [| c s Hc Hs IH]; cbn; [reflexivity |].
  rewrite (agree c Hc), IH. reflexivity.
Qed.

Lemma strip_with_Forall (sp : N -> bool) (s : list N) :
  Forall P s -> Forall P (strip_with sp s).
Proof.
  intros H. unfold strip_with.
  apply Forall_rev, lstrip_with_Forall, Forall_rev, lstrip_with_Forall, H.
Qed.

Lemma strip_with_ext (s : list N) :
  Forall P s -> strip_with f s = strip_with g s.
Proof.
  intros H. unfold strip_with.
  rewrite (lstrip_with_ext s H).
  rewrite (lstrip_with_ext (rev (lstrip_with g s))); [reflexivity |].
  apply Forall_rev, lstrip_with_Forall, H.
Qed.

Lemma at_boundary_ext (p : position) :
  (pos_ok P) p -> at_boundary f p = at_boundary g p.
Proof.
  destruct p as [[c |] [| x s]]; intros [H1 H2]; unfold at_boundary; cbn in *;
    repeat match goal with
           | H : Forall P (_ :: _) |- _ => inversion H; subst; clear H
           end;
    repeat match goal with
           | H : P ?c |- _ => rewrite (agree c H); clear H
           end; reflexivity.
Qed.

Lemma match_chars_ok (lit : list N) (p : position) :
  (pos_ok P) p -> Forall (pos_ok P) (match_chars lit p).
Proof.
  revert p. induction lit as [| c lit IH]; intros p Hp; cbn.
  - constructor; [exact Hp | constructor].
  - destruct p as [prev [| x s]]; cbn; [constructor |].
    destruct (x =? c); [| constructor].
    apply IH. destruct Hp as [_ Hs]. inversion Hs; subst. split; assumption.
Qed.

Lemma match_set_ok (cs : list N) (p : position) :
  (pos_ok P) p -> Forall (pos_ok P) (match_set cs p).
Proof.
  destruct p as [prev [| x s]]; intros [_ Hs]; unfold match_set; cbn;
    [constructor |].
  destruct (existsb (N.eqb x) cs); [| constructor].
  inversion Hs; subst. constructor; [split; assumption | constructor].
Qed.

Lemma re_match_ext (r : regex) (p : position) :
  (pos_ok P) p ->
  re_match f r p = re_match g r p /\ Forall (pos_ok P) (re_match f r p).
Proof.
  revert p. induction r as [lit | cs | | r IH | r1 IH1 r2 IH2 | r1 IH1 r2 IH2];
    intros p Hp; cbn.
  - split; [reflexivity | apply match_chars_ok, Hp].
  - split; [reflexivity | apply match_set_ok, Hp].
  - rewrite (at_boundary_ext p Hp). split; [reflexivity |].
    destruct (at_boundary g p); repeat constructor; apply Hp.
  - apply IH, Hp.
  - destruct (IH1 p Hp) as [E1 F1]. rewrite <- E1.
    generalize (re_match f r1 p) F1. clear E1 F1.
    induction 1 as [| q l Hq Hl IHl]; cbn; [split; [reflexivity | constructor] |].
    destruct (IH2 q Hq) as [E2 F2]. destruct IHl as [E3 F3].
    rewrite <- E2, <- E3. split; [reflexivity |].
    apply Forall_app. split; [exact F2 | exact F3].
  - destruct (IH1 p Hp) as [E1 F1]. destruct (IH2 p Hp) as [E2 F2].
    rewrite E1, E2. split; [reflexivity |].
    apply Forall_app. split; [rewrite <- E1; exact F1 | rewrite <- E2; exact F2].
Qed.

Lemma search_from_ext (r : regex) (prev : option N) (s : list N) :
  (pos_ok P) (prev, s) -> search_from f r prev s = search_from g r prev s.
Proof.
  revert prev. induction s as [| c s IH]; intros prev Hp; cbn;
    unfold matches_at; rewrite (proj1 (re_match_ext r _ Hp)); [reflexivity |].
  f_equal. apply IH. destruct Hp as [_ Hs]. inversion Hs; subst.
  split; assumption.
Qed.

Lemma search_with_ext (r : regex) (s : list N) :
  Forall P s -> search_with f r s = search_with g r s.
Proof.
  intros H. apply search_from_ext. split; [exact I | exact H].
Qed.

End Agreement.

Lemma ascii_lower_is_ascii (s : list N) :
  Forall is_ascii s -> Forall is_ascii (List.map ascii_lower s).
Proof.
  induction 1 as [| c s Hc Hs IH]; cbn; constructor; [| exact IH].
  unfold is_ascii, ascii_lower in *.
  destruct ((65 <=? c) && (c <=? 90)) eqn:E; [| exact Hc].
  apply andb_true_iff in E. destruct E as [_ E]. apply N.leb_le in E. lia.
Qed.

Lemma ascii_lower_upper (s : list N) :
  List.map ascii_lower (List.map ascii_upper s) = List.map ascii_lower s.
Proof.
  rewrite List.map_map. apply List.map_ext. intros c.
  unfold ascii_lower, ascii_upper.
  destruct ((97 <=? c) && (c <=? 122)) eqn:E1.
  - apply andb_true_iff in E1. destruct E1 as [A B].
    apply N.leb_le in A. apply N.leb_le in B.
    replace ((65 <=? c - 32) && (c - 32 <=? 90)) with true
      by (symmetry; apply andb_true_iff; split; apply N.leb_le; lia).
    replace ((65 <=? c) && (c <=? 90)) with false
      by (symmetry; apply andb_false_iff; right; apply N.leb_gt; lia).
    lia.
  - reflexivity.
Qed.

Lemma ascii_upper_is_ascii (s : list N) :
  Forall is_ascii s -> Forall is_ascii (List.map ascii_upper s).
Proof.
  induction 1 as [| c s Hc Hs IH]; cbn; constructor; [| exact IH].
  unfold is_ascii, ascii_upper in *.
  destruct ((97 <=? c) && (c <=? 122)); lia.
Qed.

(** On ASCII text the classifier does not depend on the tables. *)
Lemma detect_intent_ascii (U : Unicode) (text : list N) :
  Forall is_ascii text ->
  @detect_intent U text = @detect_intent ascii_tables text.
Proof.
  intros H.
  assert (Hl : @str_lower U text = List.map ascii_lower text)
    by (apply str_lower_ascii, H).
  assert (Hs : @str_strip U (@str_lower U text)
               = @str_strip ascii_tables (@str_lower ascii_tables text)).
  { unfold str_strip. rewrite Hl. cbn [str_lower ascii_tables].
    apply (strip_with_ext _ _ is_ascii); [apply isspace_ascii |].
    apply ascii_lower_is_ascii, H. }
  assert (Ha : Forall is_ascii (@str_strip ascii_tables (@str_lower ascii_tables text))).
  { unfold str_strip. apply strip_with_Forall.
    cbn [str_lower ascii_tables]. apply ascii_lower_is_ascii, H. }
  unfold detect_intent. rewrite Hs.
  unfold re_search.
  repeat rewrite (search_with_ext (@isword U) (@isword ascii_tables) is_ascii
                    (@isword_ascii U) _ _ Ha).
  reflexivity.
Qed.

(** ** The search finds what the patterns match *)

Lemma last_of_nil (prev : option N) : last_of prev [] = prev.
Proof. reflexivity. Qed.

Lemma last_of_cons (prev : option N) (c : N) (mid : list N) :
  last_of prev (c :: mid) = last_of (Some c) mid.
Proof.
  unfold last_of. destruct mid as [| d mid]; [reflexivity |].
  rewrite last_cons_cons. destruct (last (d :: mid)) eqn:E; [reflexivity |].
  apply last_None in E. discriminate E.
Qed.

Lemma last_of_app (prev : option N) (m1 m2 : list N) :
  last_of prev (m1 ++ m2) = last_of (last_of prev m1) m2.
Proof.
  revert prev. induction m1 as [| c m1 IH]; intros prev; [reflexivity |].
  cbn [app]. rewrite !last_of_cons. apply IH.
Qed.

Lemma last_of_last (pre : list N) : last_of None pre = last pre.
Proof. unfold last_of. destruct (last pre); reflexivity. Qed.

Lemma match_chars_spec (lit : list N) (prev : option N) (s : list N) (q : position) :
  In q (match_chars lit (prev, s))
  <-> exists post, s = lit ++ post /\ q = (last_of prev lit, post).
Proof.
  revert prev s. induction lit as [| c lit IH]; intros prev s; cbn [match_chars snd].
  - cbn [In]. split.
    + intros [<- | []]. exists s. split; reflexivity.
    + intros (post & -> & ->). left. reflexivity.
  - destruct s as [| x rest].
    + split; [intros [] | intros (post & E & _); discriminate E].
    + destruct (N.eqb_spec x c) as [-> | Hne].
      * rewrite IH. split.
        -- intros (post & -> & ->). exists post. rewrite last_of_cons.
           split; reflexivity.
        -- intros (post & E & ->). inversion E; subst. exists post.
           rewrite last_of_cons. split; reflexivity.
      * split; [intros [] |].
        intros (post & E & _). inversion E. congruence.
Qed.

Lemma match_set_spec (cs : list N) (prev : option N) (s : list N) (q : position) :
  In q (match_set cs (prev, s))
  <-> exists c post, In c cs /\ s = c :: post /\ q = (Some c, post).
Proof.
  unfold match_set. cbn [snd]. destruct s as [| x rest].
  - split; [intros [] | intros (c & post & _ & E & _); discriminate E].
  - destruct (existsb (N.eqb x) cs) eqn:E.
    + apply existsb_exists in E. destruct E as (c & Hc & Hx).
      apply N.eqb_eq in Hx. subst c. cbn [In]. split.
      * intros [<- | []]. exists x, rest. repeat split. exact Hc.
      * intros (c & post & _ & E & ->). inversion E; subst. left. reflexivity.
    + split; [intros [] |].
      intros (c & post & Hc & E' & _). inversion E'; subst.
      assert (existsb (N.eqb c) cs = true)
        by (apply existsb_exists; exists c; split; [exact Hc | apply N.eqb_refl]).
      congruence.
Qed.

(** [re_match] lists exactly the ends of the matches that start at the
    position. *)
Lemma re_match_spec (w : N -> bool) (r : regex) :
  forall (prev : option N) (s : list N) (q : position),
    In q (re_match w r (prev, s))
    <-> exists mid post,
          s = mid ++ post /\ q = (last_of prev mid, post)
          /\ matches w r prev mid post.
Proof.
  induction r as [lit | cs | | r IH | r1 IH1 r2 IH2 | r1 IH1 r2 IH2];
    intros prev s q; cbn [re_match].
  - rewrite match_chars_spec. split.
    + intros (post & -> & ->). exists lit, post. repeat split. constructor.
    + intros (mid & post & -> & -> & H). inversion H; subst.
      exists post. split; reflexivity.
  - rewrite match_set_spec. split.
    + intros (c & post & Hc & -> & ->). exists [c], post.
      repeat split. constructor. exact Hc.
    + intros (mid & post & -> & -> & H). inversion H; subst.
      exists c, post. repeat split. assumption.
  - destruct (at_boundary w (prev, s)) eqn:E; cbn [In]; split.
    + intros [<- | []]. exists [], s. repeat split. constructor. exact E.
    + intros (mid & post & -> & -> & H). inversion H; subst. left. reflexivity.
    + intros [].
    + intros (mid & post & -> & -> & H). inversion H; subst.
      cbn [app] in E. congruence.
  - rewrite IH. split.
    + intros (mid & post & -> & -> & H). exists mid, post.
      repeat split. constructor. exact H.
    + intros (mid & post & -> & -> & H). inversion H; subst.
      exists mid, post. repeat split. assumption.
  - rewrite in_flat_map. split.
    + intros ([prev1 s1] & H1 & H2).
      apply IH1 in H1. destruct H1 as (m1 & post1 & -> & E1 & M1).
      inversion E1; subst. clear E1.
      apply IH2 in H2. destruct H2 as (m2 & post & -> & -> & M2).
      exists (m1 ++ m2), post. rewrite <- app_assoc, last_of_app.
      repeat split. constructor; assumption.
    + intros (mid & post & -> & -> & H). inversion H; subst.
      exists (last_of prev m1, m2 ++ post). split.
      * apply IH1. exists m1, (m2 ++ post). rewrite <- app_assoc.
        repeat split. assumption.
      * apply IH2. exists m2, post. rewrite last_of_app.
        repeat split. assumption.
  - rewrite in_app_iff, IH1, IH2. split.
    + intros [(mid & post & -> & -> & H) | (mid & post & -> & -> & H)];
        exists mid, post; repeat split.
      * apply matches_or_left. exact H.
      * apply matches_or_right. exact H.
    + intros (mid & post & -> & -> & H). inversion H; subst.
      * left. exists mid, post. repeat split. assumption.
      * right. exists mid, post. repeat split. assumption.
Qed.

Lemma matches_at_spec (w : N -> bool) (r : regex) (prev : option N) (s : list N) :
  matches_at w r (prev, s) = true
  <-> exists mid post, s = mid ++ post /\ matches w r prev mid post.
Proof.
  unfold matches_at. split.
  - destruct (re_match w r (prev, s)) as [| q l] eqn:E; [discriminate |].
    intros _. assert (Hq : In q (re_match w r (prev, s))) by (rewrite E; left; reflexivity).
    apply re_match_spec in Hq. destruct Hq as (mid & post & -> & _ & H).
    exists mid, post. split; [reflexivity | exact H].
  - intros (mid & post & -> & H).
    assert (Hq : In (last_of prev mid, post) (re_match w r (prev, mid ++ post)))
      by (apply re_match_spec; exists mid, post; repeat split; exact H).
    destruct (re_match w r (prev, mid ++ post)); [destruct Hq | reflexivity].
Qed.

Lemma search_from_spec (w : N -> bool) (r : regex) (s : list N) :
  forall prev : option N,
    search_from w r prev s = true
    <-> exists pre mid post,
          s = pre ++ mid ++ post /\ matches w r (last_of prev pre) mid post.
Proof.
  induction s as [| c s IH]; intros prev; cbn [search_from];
    rewrite orb_true_iff, matches_at_spec.
  - split.
    + intros [(mid & post & E & H) | F]; [| discriminate F].
      exists [], mid, post. split; [exact E | exact H].
    + intros (pre & mid & post & E & H). left.
      destruct pre; [| discriminate E]. exists mid, post. split; assumption.
  - rewrite IH. split.
    + intros [(mid & post & E & H) | (pre & mid & post & E & H)].
      * exists [], mid, post. split; [exact E | exact H].
      * exists (c :: pre), mid, post. rewrite last_of_cons.
        split; [cbn; rewrite E; reflexivity | exact H].
    + intros (pre & mid & post & E & H). destruct pre as [| c' pre].
      * left. exists mid, post. split; assumption.
      * right. cbn [app] in E. inversion E; subst.
        rewrite last_of_cons in H. exists pre, mid, post.
        split; [reflexivity | exact H].
Qed.

(** [re.search] with a pattern [\b(...)\b] finds an occurrence of one of
    the alternatives between two word boundaries, and nothing else. *)
Lemma search_word_pattern (w : N -> bool) (a : regex) (rest : list regex) (s : list N) :
  search_with w (word_pattern a rest) s = true
  <-> word_occurrence w (alts a rest) s.
Proof.
  unfold search_with, word_occurrence. rewrite search_from_spec. split.
  - intros (pre & mid & post & -> & H). rewrite last_of_last in H.
    unfold word_pattern in H.
    inversion H as [| | | | r1 r2 p m1 m23 po H1 H23 | |]; subst.
    inversion H1; subst. cbn [last_of last app] in *.
    inversion H23 as [| | | | r1 r2 p m2 m3 po H2 H3 | |]; subst.
    inversion H2; subst. inversion H3; subst.
    rewrite app_nil_r in *. cbn [app] in *.
    exists pre, m2, post. repeat split; assumption.
  - intros (pre & mid & post & -> & B1 & H & B2).
    exists pre, mid, post. split; [reflexivity |].
    rewrite last_of_last. unfold word_pattern.
    apply (matches_seq w WordB _ (last pre) [] mid post).
    + constructor. exact B1.
    + rewrite last_of_nil.
      rewrite <- (app_nil_r mid).
      apply (matches_seq w (Group (alts a rest)) WordB (last pre) mid [] post).
      * constructor. exact H.
      * constructor. exact B2.
Qed.

(** ** The classifier and the rule table *)

Lemma find_first {A : Type} (p : A -> bool) (pre : list A) (x : A) (post : list A) :
  Forall (fun y => p y = false) pre -> p x = true ->
  List.find p (pre ++ x :: post) = Some x.
Proof.
  induction 1 as [| y pre Hy Hpre IH]; intros Hx; cbn.
  - rewrite Hx. reflexivity.
  - rewrite Hy. apply IH, Hx.
Qed.

Lemma find_nowhere {A : Type} (p : A -> bool) (l : list A) :
  Forall (fun y => p y = false) l -> List.find p l = None.
Proof.
  induction 1 as [| y l Hy Hl IH]; cbn; [reflexivity |].
  rewrite Hy. exact IH.
Qed.

Lemma detect_intent_classify {U : Unicode} (text : list N) :
  detect_intent text = classify text.
Proof.
  unfold detect_intent, classify, RULES. cbn [List.find rule_pattern].
  repeat (match goal with
          | |- context [if re_search ?r ?t then _ else _] =>
              destruct (re_search r t)
          end; [reflexivity |]).
  reflexivity.
Qed.

Lemma forallb_is_ascii (s : list N) :
  forallb (fun c => c <? 128) s = true -> Forall is_ascii s.
Proof.
  induction s as [| c s IH]; cbn; intros H; constructor.
  - apply andb_true_iff in H. apply N.ltb_lt, H.
  - apply IH. apply andb_true_iff in H. apply H.
Qed.

Lemma literal_is_ascii_xyz : Forall is_ascii (cps "xyz nonsense qqq").
Proof. apply forallb_is_ascii. reflexivity. Qed.

(** ** Claims about the classifier and the handlers *)

(** C5: for every input string, the empty one included, [detect_intent]
    returns an intent whose label is one of the six rule labels or
    [fallback] and whose confidence is between 0 and 1; it is a function of
    its input alone, so equal inputs give equal intents. *)
Theorem detect_intent_total {U : Unicode} (text : list N) :
  In (intent (detect_intent text)) LABELS
  /\ (0 <= confidence (detect_intent text) <= 1)%Q
  /\ detect_intent [] = FALLBACK
  /\ (forall text', text' = text -> detect_intent text' = detect_intent text).
Proof.
  split; [apply detect_intent_label |].
  split.
  { pose proof (detect_intent_cases text) as H. cbn [In] in H.
    repeat (destruct H as [H | H];
            [inversion H; split; unfold Qle; cbn; lia |]).
    destruct H. }
  split.
  { rewrite (detect_intent_ascii U []) by constructor. reflexivity. }
  intros text' ->. reflexivity.
Qed.

Lemma detect_intent_total_witness :
  @detect_intent ascii_tables (cps "I have a Fever")
  = @detect_intent ascii_tables (cps "I have a Fever").
Proof.
  apply (proj2 (proj2 (proj2 (@detect_intent_total ascii_tables (cps "I have a Fever"))))).
  reflexivity.
Defined.

(** C6: [detect_intent] goes through the rules in their fixed order, on the
    lower-cased and stripped input, and returns the label and the confidence
    of the first rule whose word-boundary pattern is found; when no rule
    matches it returns [fallback] with confidence 0.5, as it does for
    "xyz nonsense qqq".  On ASCII text the case of the letters does not
    matter.  The pattern of a rule is found exactly where one of its
    alternatives occurs between two word boundaries. *)
Theorem detect_intent_first_match {U : Unicode} (text : list N) :
  let t := str_strip (str_lower text) in
  (forall pre r post,
      RULES = pre ++ r :: post ->
      Forall (fun r' => re_search (rule_pattern r') t = false) pre ->
      re_search (rule_pattern r) t = true ->
      detect_intent text = rule_intent r)
  /\ (Forall (fun r' => re_search (rule_pattern r') t = false) RULES ->
      detect_intent text = FALLBACK)
  /\ (Forall is_ascii text ->
      detect_intent (List.map ascii_upper text) = detect_intent text)
  /\ detect_intent (cps "xyz nonsense qqq") = FALLBACK
  /\ Forall (fun r => exists a rest,
                rule_pattern r = word_pattern a rest
                /\ forall s, re_search (rule_pattern r) s = true
                             <-> word_occurrence isword (alts a rest) s) RULES.
Proof.
  cbn zeta. repeat split.
  - intros pre r post E Hpre Hr. rewrite detect_intent_classify.
    unfold classify. rewrite E. rewrite (find_first _ pre r post Hpre Hr).
    reflexivity.
  - intros Hall. rewrite detect_intent_classify. unfold classify.
    rewrite (find_nowhere _ _ Hall). reflexivity.
  - intros Ha.
    rewrite (detect_intent_ascii U _ (ascii_upper_is_ascii _ Ha)).
    rewrite (detect_intent_ascii U _ Ha).
    unfold detect_intent. cbn [str_lower ascii_tables].
    rewrite ascii_lower_upper. reflexivity.
  - rewrite (detect_intent_ascii U _ literal_is_ascii_xyz). reflexivity.
  - unfold RULES.
    repeat constructor; cbn [rule_pattern]; eexists; eexists;
      (split; [reflexivity | intros s; apply search_word_pattern]).
Qed.

Lemma detect_intent_first_match_witness :
  @detect_intent ascii_tables (cps "Hello there")
  = {| intent := cps "greeting"; confidence := 0.95 |}.
Proof.
  apply (proj1 (@detect_intent_first_match ascii_tables (cps "Hello there"))
           (firstn 4 RULES)
           {| rule_pattern := GREETING_RE; rule_label := cps "greeting";
              rule_confidence := 0.95 |}
           (skipn 5 RULES)).
  - reflexivity.
  - repeat constructor.
  - reflexivity.
Defined.

(** C9: the label [detect_intent] returns is always a key of
    [INTENT_HANDLERS], so the lookup in [respond] finds a registered handler
    and never has to take its default. *)
Theorem detected_label_has_handler {U : Unicode} (text : list N) :
  exists h : Handler,
    INTENT_HANDLERS !! intent (detect_intent text) = Some h
    /\ dict_get INTENT_HANDLERS (intent (detect_intent text)) handle_fallback = h.
Proof.
  destruct (lookup_label _ (detect_intent_label text)) as [h E].
  exists h. split; [exact E |]. unfold dict_get. rewrite E. reflexivity.
Qed.

(** C7: for every label, message and context the dispatch gives a reply
    that is not empty; a label with no registered handler, as is every label
    outside the seven, gets exactly the reply of [handle_fallback]. *)
Theorem dispatch_total {U : Unicode} (label message : list N)
    (context : gmap (list N) pyval) :
  dispatch label message context <> []
  /\ (INTENT_HANDLERS !! label = None ->
      dispatch label message context = handle_fallback message context)
  /\ (~ In label LABELS -> INTENT_HANDLERS !! label = None).
Proof.
  split; [| split].
  - unfold dispatch. apply handlers_nonempty, chosen_handler.
  - intros E. unfold dispatch, dict_get. rewrite E. reflexivity.
  - apply lookup_unlisted.
Qed.

Lemma dispatch_total_witness :
  @dispatch ascii_tables (cps "weather") (cps "will it rain?") ∅
  = @handle_fallback (cps "will it rain?") ∅.
Proof.
  pose proof (@dispatch_total ascii_tables (cps "weather") (cps "will it rain?") ∅)
    as [_ [Hmiss Hout]].
  apply Hmiss. apply Hout.
  unfold LABELS. cbn [In]. intros H.
  repeat (destruct H as [H | H]; [discriminate |]). destruct H.
Defined.

(** ** respond and the message log *)

Lemma no_fault_at (env : Env) (from count n : nat) :
  no_fault env from count -> (from <= n < from + count)%nat ->
  io_fault env n = false.
Proof.
  intros H Hn. replace n with (from + (n - from))%nat by lia. apply H. lia.
Qed.

Lemma bind_returns {A B : Type} (m : M A) (k : A -> M B) (env : Env)
    (w w' : World) (b : B) :
  bind m k env w = (Return b, w') ->
  exists a w1, m env w = (Return a, w1) /\ k a env w1 = (Return b, w').
Proof.
  unfold bind. destruct (m env w) as [[a | e] w1]; intros H.
  - exists a, w1. split; [reflexivity | exact H].
  - discriminate H.
Qed.

Lemma bind_run {A B : Type} (m : M A) (k : A -> M B) (env : Env)
    (w w1 : World) (a : A) :
  m env w = (Return a, w1) -> bind m k env w = k a env w1.
Proof. unfold bind. intros ->. reflexivity. Qed.

Lemma log_message_returns (session_id role message : list N) (env : Env) (w w' : World) :
  log_message session_id role message env w = (Return tt, w') ->
  w' = logged env w session_id role message.
Proof.
  unfold log_message, bind, io_step, utcnow, insert_row, logged. cbn.
  destruct (io_fault env (io_steps w)); cbn; [discriminate |].
  destruct (io_fault env (S (io_steps w))); cbn; [discriminate |].
  destruct (io_fault env (S (S (io_steps w)))); cbn; [discriminate |].
  destruct (io_fault env (S (S (S (io_steps w))))); cbn; [discriminate |].
  intros H. inversion H. reflexivity.
Qed.

Lemma log_message_succeeds (session_id role message : list N) (env : Env) (w : World) :
  no_fault env (io_steps w) 4 ->
  log_message session_id role message env w
  = (Return tt, logged env w session_id role message).
Proof.
  intros H.
  unfold log_message, bind, io_step, utcnow, insert_row, logged. cbn.
  rewrite (no_fault_at env (io_steps w) 4 (io_steps w) H) by lia. cbn.
  rewrite (no_fault_at env (io_steps w) 4 (S (io_steps w)) H) by lia. cbn.
  rewrite (no_fault_at env (io_steps w) 4 (S (S (io_steps w))) H) by lia. cbn.
  rewrite (no_fault_at env (io_steps w) 4 (S (S (S (io_steps w)))) H) by lia.
  reflexivity.
Qed.

Section RespondFacts.

Context {U : Unicode}.

(** What a call of [respond] that returns has done. *)
Lemma respond_returns (message session_id : list N)
    (context : option (gmap (list N) pyval)) (env : Env) (w w' : World) (e : Envelope) :
  respond message session_id context env w = (Return e, w') ->
  reply e = dispatch (intent (detect_intent message)) message (context_or_empty context)
  /\ reply_intent e = detect_intent message
  /\ timestamp e = utcnow_isoformat env (S (S (clock_reads w)))
  /\ messages w' = messages w ++
       [user_row session_id message (utcnow_isoformat env (clock_reads w));
        bot_row session_id (reply e) (utcnow_isoformat env (S (clock_reads w)))]
  /\ active_connections w' = active_connections w
  /\ outbox w' = outbox w.
Proof.
  unfold respond. cbn zeta. intros H.
  apply bind_returns in H. destruct H as ([] & w1 & H1 & H).
  apply bind_returns in H. destruct H as ([] & w2 & H2 & H).
  apply log_message_returns in H1. apply log_message_returns in H2.
  unfold bind, utcnow, ret in H. inversion H. subst e w' w2 w1. clear H.
  cbn. rewrite <- app_assoc. repeat split; reflexivity.
Qed.

(** A call of [respond] returns when no step on the database fails. *)
Lemma respond_succeeds (message session_id : list N)
    (context : option (gmap (list N) pyval)) (env : Env) (w : World) :
  no_fault env (io_steps w) 8 ->
  exists e w', respond message session_id context env w = (Return e, w').
Proof.
  intros H. unfold respond. cbn zeta.
  erewrite bind_run; cycle 1.
  { apply log_message_succeeds. intros i Hi. apply H. lia. }
  erewrite bind_run; cycle 1.
  { apply log_message_succeeds. intros i Hi. cbn [io_steps logged].
    replace (4 + io_steps w + i)%nat with (io_steps w + (4 + i))%nat by lia.
    apply H. lia. }
  unfold bind, utcnow, ret. eexists. eexists. reflexivity.
Qed.

(** The handler chosen for a label gives the same reply in any context. *)
Lemma dispatch_ignores_context (label message : list N)
    (c1 c2 : gmap (list N) pyval) :
  dispatch label message c1 = dispatch label message c2.
Proof.
  unfold dispatch. apply handlers_ignore_context, chosen_handler.
Qed.

(** C1: a call of [respond] that returns has added exactly two rows to the
    message log, both for the session of the call: first a [user] row with
    the message, then a [bot] row whose text is the [reply] of the envelope
    returned; the envelope holds that reply, the intent [detect_intent]
    gives for the message, and a timestamp.  The call does return when no
    step on the database fails. *)
Theorem respond_logs_user_then_bot (message session_id : list N)
    (context : option (gmap (list N) pyval)) (env : Env) (w : World) :
  (no_fault env (io_steps w) 8 ->
   exists e w', respond message session_id context env w = (Return e, w'))
  /\ (forall e w',
        respond message session_id context env w = (Return e, w') ->
        exists t_user t_bot t_reply : list N,
          messages w' = messages w ++
            [ {| row_session_id := session_id; row_role := cps "user";
                 row_message := message; row_timestamp := t_user |};
              {| row_session_id := session_id; row_role := cps "bot";
                 row_message := reply e; row_timestamp := t_bot |} ]
          /\ reply e = dispatch (intent (detect_intent message)) message
                         (context_or_empty context)
          /\ reply_intent e = detect_intent message
          /\ timestamp e = t_reply).
Proof.
  split; [apply respond_succeeds |].
  intros e w' H. apply respond_returns in H.
  destruct H as (Hr & Hi & Ht & Hm & _).
  eexists. eexists. eexists.
  split; [exact Hm |]. split; [exact Hr |]. split; [exact Hi | exact Ht].
Qed.

(** C10: the reply and the intent of [respond] do not depend on the
    context: two calls with the same message and session id, in any two
    contexts (an omitted one stands for the empty dict) and in any two
    worlds, return the same reply and the same intent; from the same world
    they give the same result and leave the same world. *)
Theorem respond_ignores_context (message session_id : list N)
    (c1 c2 : option (gmap (list N) pyval)) :
  (forall env w, respond message session_id c1 env w
                 = respond message session_id c2 env w)
  /\ (forall env1 w1 env2 w2 e1 w1' e2 w2',
        respond message session_id c1 env1 w1 = (Return e1, w1') ->
        respond message session_id c2 env2 w2 = (Return e2, w2') ->
        reply e1 = reply e2 /\ reply_intent e1 = reply_intent e2).
Proof.
  split.
  - intros env w. unfold respond. cbn zeta.
    change (dict_get INTENT_HANDLERS (intent (detect_intent message)) handle_fallback
              message (match c1 with None => ∅ | Some c => c end))
      with (dispatch (intent (detect_intent message)) message (context_or_empty c1)).
    change (dict_get INTENT_HANDLERS (intent (detect_intent message)) handle_fallback
              message (match c2 with None => ∅ | Some c => c end))
      with (dispatch (intent (detect_intent message)) message (context_or_empty c2)).
    rewrite (dispatch_ignores_context _ _ (context_or_empty c1) (context_or_empty c2)).
    reflexivity.
  - intros env1 w1 env2 w2 e1 w1' e2 w2' H1 H2.
    apply respond_returns in H1. apply respond_returns in H2.
    destruct H1 as (R1 & I1 & _). destruct H2 as (R2 & I2 & _).
    rewrite R1, R2, I1, I2. split; [apply dispatch_ignores_context | reflexivity].
Qed.

End RespondFacts.

Lemma respond_logs_user_then_bot_witness :
  exists e w',
    @respond ascii_tables (cps "Hello there") (cps "s1") None calm_env empty_world
    = (Return e, w')
    /\ List.map row_role (messages w') = [cps "user"; cps "bot"]
    /\ List.map row_message (messages w') = [cps "Hello there"; reply e].
Proof.
  destruct (proj1 (@respond_logs_user_then_bot ascii_tables (cps "Hello there")
                     (cps "s1") None calm_env empty_world)) as (e & w' & H).
  { intros i _. reflexivity. }
  exists e, w'. split; [exact H |].
  destruct (proj2 (@respond_logs_user_then_bot ascii_tables (cps "Hello there")
                     (cps "s1") None calm_env empty_world) e w' H)
    as (t1 & t2 & t3 & Hm & _).
  rewrite Hm. split; reflexivity.
Defined.

Lemma respond_ignores_context_witness :
  reply (returned first_call) = reply (returned second_call)
  /\ reply_intent (returned first_call) = reply_intent (returned second_call).
Proof.
  apply (proj2 (@respond_ignores_context ascii_tables (cps "my bill") (cps "s1") None
                  (Some {[ cps "plan" := PyStr (cps "gold") ]}))
           calm_env empty_world calm_env (snd first_call)
           (returned first_call) (snd first_call)
           (returned second_call) (snd second_call)).
  - vm_compute. reflexivity.
  - vm_compute. reflexivity.
Defined.

(** ** The registry of connections *)

Lemma handles_of_lookup (session_id : list N) (w : World) :
  handles_of session_id w
  = match active_connections w !! session_id with
    | Some ws => [ws]
    | None => []
    end.
Proof.
  unfold handles_of. generalize (active_connections w). clear w.
  intros m. induction m as [| k ws m Hk Hfirst IH] using map_first_key_ind.
  - rewrite map_to_list_empty, lookup_empty. reflexivity.
  - rewrite (map_to_list_insert_first_key m k ws Hk Hfirst).
    rewrite filter_cons. cbn [fst]. destruct (decide (k = session_id)) as [-> | Hne].
    + rewrite lookup_insert_eq. rewrite fmap_cons. cbn [snd].
      rewrite IH, Hk. reflexivity.
    + rewrite lookup_insert_ne by assumption. exact IH.
Qed.

Lemma connect_run (websocket : WebSocket) (session_id : list N) (env : Env) (w : World) :
  connect websocket session_id env w
  = if io_fault env (io_steps w)
    then (Raise WebSocketError, stepped w)
    else (Return tt,
          {| messages := messages w;
             active_connections := <[session_id := websocket]> (active_connections w);
             outbox := outbox w;
             clock_reads := clock_reads w;
             io_steps := S (io_steps w) |}).
Proof.
  unfold connect, ws_accept, bind, io_step.
  destruct (io_fault env (io_steps w)); reflexivity.
Qed.

Lemma send_personal_message_run (message session_id : list N) (env : Env) (w : World) :
  send_personal_message message session_id env w
  = match active_connections w !! session_id with
    | None => (Return PyNone, w)
    | Some ws =>
        if io_fault env (io_steps w)
        then (Raise WebSocketError, stepped w)
        else (Return PyNone,
              {| messages := messages w;
                 active_connections := active_connections w;
                 outbox := outbox w ++ [(ws, message)];
                 clock_reads := clock_reads w;
                 io_steps := S (io_steps w) |})
    end.
Proof.
  unfold send_personal_message, bind, get_connections.
  destruct (active_connections w !! session_id) as [ws |]; [| reflexivity].
  unfold ws_send_text, bind, io_step, ret.
  destruct (io_fault env (io_steps w)); reflexivity.
Qed.

Lemma connect_returns (websocket : WebSocket) (session_id : list N)
    (env : Env) (w w' : World) :
  connect websocket session_id env w = (Return tt, w') ->
  active_connections w' = <[session_id := websocket]> (active_connections w).
Proof.
  rewrite connect_run.
  destruct (io_fault env (io_steps w)); intros H; inversion H. reflexivity.
Qed.

(** The form [pop(k)] with one argument raises on an absent key; the form
    with a default, which [disconnect] uses, does not. *)
Lemma dict_pop_absent {V : Type} (d : gmap (list N) V) (k : list N) :
  d !! k = None ->
  dict_pop d k = Raise KeyError /\ dict_pop_default d k = Return (None, d).
Proof. intros E. unfold dict_pop, dict_pop_default. rewrite E. split; reflexivity. Qed.

Lemma disconnect_world (session_id : list N) (env : Env) (w : World) :
  disconnect session_id env w
  = (Return tt,
     {| messages := messages w;
        active_connections := delete session_id (active_connections w);
        outbox := outbox w;
        clock_reads := clock_reads w;
        io_steps := io_steps w |}).
Proof.
  unfold disconnect, bind, get_connections, lift_outcome, dict_pop_default,
    set_connections.
  destruct (active_connections w !! session_id) eqn:E; cbn; [reflexivity |].
  rewrite delete_id by exact E. reflexivity.
Qed.

(** C8: [disconnect] never raises; a second [disconnect] on the same id
    leaves the world the first one left, and a [disconnect] on an id that is
    not registered leaves the world as it was. *)
Theorem disconnect_idempotent (session_id : list N) (env : Env) (w : World) :
  fst (disconnect session_id env w) = Return tt
  /\ disconnect session_id env (snd (disconnect session_id env w))
     = (Return tt, snd (disconnect session_id env w))
  /\ (active_connections w !! session_id = None ->
      disconnect session_id env w = (Return tt, w)).
Proof.
  split; [rewrite disconnect_world; reflexivity |]. split.
  - rewrite !disconnect_world. cbn. rewrite delete_delete_eq. reflexivity.
  - intros E. rewrite disconnect_world. rewrite delete_id by exact E.
    destruct w; reflexivity.
Qed.

Lemma disconnect_idempotent_witness :
  disconnect (cps "ghost") calm_env empty_world = (Return tt, empty_world).
Proof.
  apply (proj2 (proj2 (disconnect_idempotent (cps "ghost") calm_env empty_world))).
  reflexivity.
Defined.

Lemma handles_of_at_most_one (session_id : list N) (w : World) :
  (length (handles_of session_id w) <= 1)%nat.
Proof.
  rewrite handles_of_lookup.
  destruct (active_connections w !! session_id); cbn; lia.
Qed.

Lemma after_call_track (env : Env) (w : World) (c : manager_call) (session_id : list N) :
  active_connections (after_call env w c) !! session_id
  = track session_id (active_connections w !! session_id) (c, call_returns env w c).
Proof.
  destruct c as [websocket sid | sid | message sid]; cbn [after_call call_returns track].
  - rewrite connect_run.
    destruct (io_fault env (io_steps w)); cbn; [reflexivity |].
    destruct (decide (sid = session_id)) as [-> | Hne].
    + apply lookup_insert_eq.
    + apply lookup_insert_ne, Hne.
  - rewrite disconnect_world. cbn.
    destruct (decide (sid = session_id)) as [-> | Hne].
    + apply lookup_delete_eq.
    + apply lookup_delete_ne, Hne.
  - rewrite send_personal_message_run.
    destruct (active_connections w !! sid); cbn;
      [destruct (io_fault env (io_steps w)); cbn |]; reflexivity.
Qed.

Lemma after_calls_track (env : Env) (calls : list manager_call) (w : World)
    (session_id : list N) :
  active_connections (after_calls env w calls) !! session_id
  = fold_left (track session_id) (history env w calls)
      (active_connections w !! session_id).
Proof.
  revert w. induction calls as [| c calls IH]; intros w; cbn; [reflexivity |].
  unfold after_calls in IH. rewrite IH, after_call_track. reflexivity.
Qed.

(** C4: in every world reached from an empty registry by calls of
    [connect], [disconnect] and [send_personal_message], the registry holds
    at most one handle for a session id, and it is the handle of the last
    [connect] for the id that returned, if no [disconnect] for the id came
    after it; after two [connect] calls in a row for the same id that both
    return, the one handle registered for the id is that of the second call,
    and a [disconnect] on the id then leaves none. *)
Theorem registry_one_handle_per_session (env : Env) (session_id : list N) :
  (forall (w0 : World) (calls : list manager_call),
      active_connections w0 = ∅ ->
      (length (handles_of session_id (after_calls env w0 calls)) <= 1)%nat
      /\ active_connections (after_calls env w0 calls) !! session_id
         = fold_left (track session_id) (history env w0 calls) None)
  /\ (forall (w w1 w2 : World) (first second : WebSocket),
        connect first session_id env w = (Return tt, w1) ->
        connect second session_id env w1 = (Return tt, w2) ->
        handles_of session_id w2 = [second]
        /\ active_connections w2 !! session_id = Some second
        /\ handles_of session_id (snd (disconnect session_id env w2)) = []
        /\ active_connections (snd (disconnect session_id env w2)) !! session_id = None).
Proof.
  split.
  - intros w0 calls E0. split; [apply handles_of_at_most_one |].
    rewrite after_calls_track, E0, lookup_empty. reflexivity.
  - intros w w1 w2 first second H1 H2.
    apply connect_returns in H1. apply connect_returns in H2.
    assert (E : active_connections w2 !! session_id = Some second)
      by (rewrite H2; apply lookup_insert_eq).
    assert (D : active_connections (snd (disconnect session_id env w2)) !! session_id = None)
      by (rewrite disconnect_world; cbn; apply lookup_delete_eq).
    rewrite !handles_of_lookup, E, D. repeat split; reflexivity.
Qed.

Lemma registry_one_handle_per_session_witness :
  (length (handles_of (cps "s1")
     (after_calls calm_env empty_world
        [CallConnect {| ws_id := 1 |} (cps "s1");
         CallConnect {| ws_id := 2 |} (cps "s1")])) <= 1)%nat
  /\ handles_of (cps "s1")
       (snd (connect {| ws_id := 2 |} (cps "s1") calm_env
          (snd (connect {| ws_id := 1 |} (cps "s1") calm_env empty_world))))
     = [{| ws_id := 2 |}].
Proof.
  split.
  - apply (proj1 (registry_one_handle_per_session calm_env (cps "s1")) empty_world).
    reflexivity.
  - apply (proj2 (registry_one_handle_per_session calm_env (cps "s1"))
             empty_world
             (snd (connect {| ws_id := 1 |} (cps "s1") calm_env empty_world))
             (snd (connect {| ws_id := 2 |} (cps "s1") calm_env
                (snd (connect {| ws_id := 1 |} (cps "s1") calm_env empty_world))))
             {| ws_id := 1 |} {| ws_id := 2 |}); reflexivity.
Defined.

(** ** send_personal_message *)

(** C2, as stated, fails: with a handle registered for "s1" and the send
    made, the value of the call is [None], not [True]. *)
Lemma send_tells_whether_found_fails :
  is_Some (active_connections one_session_world !! cps "s1")
  /\ send_personal_message (cps "hi") (cps "s1") calm_env one_session_world
     = (Return PyNone,
        {| messages := [];
           active_connections := {[ cps "s1" := {| ws_id := 1 |} ]};
           outbox := [({| ws_id := 1 |}, cps "hi")];
           clock_reads := 0; io_steps := 1 |})
  /\ ~ send_tells_whether_found (cps "hi") (cps "s1") calm_env one_session_world.
Proof.
  assert (E : active_connections one_session_world !! cps "s1" = Some {| ws_id := 1 |})
    by apply lookup_singleton_eq.
  assert (R : send_personal_message (cps "hi") (cps "s1") calm_env one_session_world
     = (Return PyNone,
        {| messages := [];
           active_connections := {[ cps "s1" := {| ws_id := 1 |} ]};
           outbox := [({| ws_id := 1 |}, cps "hi")];
           clock_reads := 0; io_steps := 1 |})).
  { rewrite send_personal_message_run, E. reflexivity. }
  split; [rewrite E; eauto |]. split; [exact R |].
  intros [b [Hb _]]. rewrite R in Hb. discriminate Hb.
Qed.

(** C2, amended: the value of [send_personal_message] is [None], never a
    boolean.  With no handle registered for the id the call returns and
    changes nothing.  With a handle registered the send is attempted on that
    handle: the call returns with the frame sent on it, or raises the error
    of the socket; the registry is as it was. *)
Theorem send_personal_message_spec (message session_id : list N)
    (env : Env) (w : World) :
  (forall b : bool,
      fst (send_personal_message message session_id env w) <> Return (PyBool b))
  /\ (active_connections w !! session_id = None ->
      send_personal_message message session_id env w = (Return PyNone, w))
  /\ (forall ws : WebSocket,
        active_connections w !! session_id = Some ws ->
        let r := send_personal_message message session_id env w in
        io_steps (snd r) = S (io_steps w)
        /\ active_connections (snd r) = active_connections w
        /\ (if io_fault env (io_steps w)
            then fst r = Raise WebSocketError /\ outbox (snd r) = outbox w
            else fst r = Return PyNone
                 /\ outbox (snd r) = outbox w ++ [(ws, message)])).
Proof.
  rewrite send_personal_message_run.
  split; [| split].
  - intros b. destruct (active_connections w !! session_id); cbn;
      [destruct (io_fault env (io_steps w)); cbn |]; discriminate.
  - intros ->. reflexivity.
  - intros ws ->. cbn. destruct (io_fault env (io_steps w)); cbn; tauto.
Qed.

Lemma send_personal_message_spec_witness :
  send_personal_message (cps "hi") (cps "nobody") calm_env one_session_world
  = (Return PyNone, one_session_world)
  /\ outbox (snd (send_personal_message (cps "hi") (cps "s1") calm_env one_session_world))
     = [({| ws_id := 1 |}, cps "hi")].
Proof.
  pose proof (send_personal_message_spec (cps "hi") (cps "nobody") calm_env
                one_session_world) as [_ [Habsent _]].
  pose proof (send_personal_message_spec (cps "hi") (cps "s1") calm_env
                one_session_world) as [_ [_ Hfound]].
  split.
  - apply Habsent. apply lookup_singleton_ne. discriminate.
  - specialize (Hfound {| ws_id := 1 |} (lookup_singleton_eq _ _)).
    cbn zeta in Hfound. destruct Hfound as (_ & _ & Hout).
    cbn [io_fault calm_env io_steps one_session_world] in Hout.
    destruct Hout as [_ Hout]. exact Hout.
Defined.

(** ** json.loads: the decoder does not depend on its fuel *)

Lemma lstrip_with_length (sp : N -> bool) (s : list N) :
  (length (lstrip_with sp s) <= length s)%nat.
Proof.
  induction s as [| c s IH]; cbn; [lia |].
  destruct (sp c); cbn; lia.
Qed.

Lemma skip_ws_cons (s : list N) (x : N) (r : list N) :
  Json.skip_ws s = x :: r -> (length r < length s)%nat.
Proof.
  intros E. pose proof (lstrip_with_length Json.is_ws s) as H.
  unfold Json.skip_ws in E. rewrite E in H. cbn in H. lia.
Qed.

Lemma scanstring_shorter (n : nat) :
  forall (s acc t r : list N),
    (length s <= n)%nat -> Json.scanstring s acc = Some (t, r) ->
    (length r < length s)%nat.
Proof.
  induction n as [| n IH]; intros s acc t r Hn H.
  - destruct s; [discriminate H | cbn in Hn; lia].
  - destruct s as [| c s1]; [discriminate H |].
    cbn [Json.scanstring] in H. cbn [length] in *.
    destruct (c =? 34); [inversion H; subst; lia |].
    destruct (c =? 92).
    + destruct s1 as [| esc s2]; [discriminate H |]. cbn [length] in *.
      destruct (esc =? 117).
      * destruct s2 as [| a [| b [| c1 [| d s3]]]]; try discriminate H.
        cbn [length] in *.
        destruct (Json.hex4 a b c1 d) as [uni |]; [| discriminate H].
        destruct (Json.is_high_surrogate uni && Json.at_unicode_escape s3).
        -- destruct s3 as [| x1 [| x2 [| a' [| b' [| c' [| d' s5]]]]]];
             try discriminate H.
           cbn [length] in *.
           destruct (Json.hex4 a' b' c' d') as [uni2 |]; [| discriminate H].
           destruct (Json.is_low_surrogate uni2);
             apply IH in H; cbn [length] in *; lia.
        -- apply IH in H; lia.
      * destruct (Json.backslash esc); [| discriminate H].
        apply IH in H; lia.
    + destruct (c <? 32); [discriminate H |].
      apply IH in H; lia.
Qed.

Lemma span_digits_length (s : list N) :
  (length (snd (Json.span_digits s)) <= length s)%nat.
Proof.
  induction s as [| c s IH]; cbn; [lia |].
  destruct (Json.is_digit c); [| cbn; lia].
  destruct (Json.span_digits s) as [ds r]. cbn in *. lia.
Qed.

Lemma scan_fraction_length (s : list N) :
  (length (snd (Json.scan_fraction s)) <= length s)%nat.
Proof.
  destruct s as [| c r]; cbn; [lia |].
  destruct (c =? 46); [| cbn; lia].
  pose proof (span_digits_length r) as H.
  destruct (Json.span_digits r) as [[| d ds] r']; cbn in *; lia.
Qed.

Lemma scan_exponent_length (s : list N) :
  (length (snd (Json.scan_exponent s)) <= length s)%nat.
Proof.
  destruct s as [| e r]; cbn; [lia |].
  destruct ((e =? 101) || (e =? 69)); [| cbn; lia].
  destruct r as [| c r'].
  - cbn. lia.
  - destruct ((c =? 45) || (c =? 43)).
    + pose proof (span_digits_length r') as H.
      destruct (Json.span_digits r') as [[| d ds] r'']; cbn in *; lia.
    + pose proof (span_digits_length (c :: r')) as H.
      destruct (Json.span_digits (c :: r')) as [[| d ds] r'']; cbn in *; lia.
Qed.

Lemma scan_number_shorter (s lexeme r : list N) :
  Json.scan_number s = Some (lexeme, r) -> (length r < length s)%nat.
Proof.
  unfold Json.scan_number.
  assert (Hnum : forall (sign s1 : list N),
             (length s1 <= length s)%nat ->
             match s1 with
             | [] => None
             | d :: s2 =>
                 if Json.is_digit d then
                   let '(int_digits, s3) :=
                     if d =? 48 then ([d], s2)
                     else let '(ds, r0) := Json.span_digits s2 in (d :: ds, r0) in
                   let '(frac, s4) := Json.scan_fraction s3 in
                   let '(expo, s5) := Json.scan_exponent s4 in
                   Some (sign ++ int_digits ++ frac ++ expo, s5)
                 else None
             end = Some (lexeme, r) -> (length r < length s)%nat).
  { intros sign [| d s2] Hle H; [discriminate H |]. cbn [length] in Hle.
    destruct (Json.is_digit d); [| discriminate H].
    assert (H3 : forall int_digits s3,
               (length s3 <= length s2)%nat ->
               (let '(frac, s4) := Json.scan_fraction s3 in
                let '(expo, s5) := Json.scan_exponent s4 in
                Some (sign ++ int_digits ++ frac ++ expo, s5)) = Some (lexeme, r) ->
               (length r < length s)%nat).
    { intros int_digits s3 H3 E.
      pose proof (scan_fraction_length s3) as Hf.
      destruct (Json.scan_fraction s3) as [frac s4].
      pose proof (scan_exponent_length s4) as He.
      destruct (Json.scan_exponent s4) as [expo s5].
      inversion E; subst. cbn in *. lia. }
    destruct (d =? 48).
    - apply (H3 [d] s2); [lia | exact H].
    - pose proof (span_digits_length s2) as Hd.
      destruct (Json.span_digits s2) as [ds r0].
      apply (H3 (d :: ds) r0); [exact Hd | exact H]. }
  destruct s as [| c s'].
  - apply (Hnum [] []). lia.
  - destruct (c =? 45).
    + apply (Hnum [c] s'). cbn. lia.
    + apply (Hnum [] (c :: s')). lia.
Qed.

Lemma after_prefix_length (lit s r : list N) :
  Json.after_prefix lit s = Some r -> length s = (length lit + length r)%nat.
Proof.
  revert s. induction lit as [| c lit IH]; intros s H; cbn in H.
  - inversion H. reflexivity.
  - destruct s as [| x s']; [discriminate H |].
    destruct (x =? c); [| discriminate H].
    apply IH in H. cbn. lia.
Qed.

Lemma scan_constant_shorter (s : list N) (v : pyval) (r : list N) :
  Json.scan_constant s = inr (v, r) -> (length r < length s)%nat.
Proof.
  unfold Json.scan_constant.
  repeat match goal with
         | |- context [Json.after_prefix ?lit s] =>
             let E := fresh "E" in
             destruct (Json.after_prefix lit s) eqn:E;
             [apply after_prefix_length in E; cbn in E;
              intros H; inversion H; subst; lia |]
         | |- context [Json.scan_number s] =>
             let E := fresh "E" in
             destruct (Json.scan_number s) as [[lexeme r0] |] eqn:E;
             [apply scan_number_shorter in E;
              intros H; inversion H; subst; lia |]
         end.
  discriminate.
Qed.

(** Each of the three functions consumes at least one character when it
    succeeds. *)
Lemma scan_shorter (fuel : nat) :
  forall depth : nat,
    (forall s v r, Json.scan_once fuel depth s = inr (v, r) ->
                   (length r < length s)%nat)
    /\ (forall s pairs v r, Json.object_pairs fuel depth s pairs = inr (v, r) ->
                            (length r < length s)%nat)
    /\ (forall s values v r, Json.array_values fuel depth s values = inr (v, r) ->
                             (length r < length s)%nat).
Proof.
  induction fuel as [| fuel IH]; intros depth.
  - repeat split; intros; discriminate.
  - split; [| split].
    + intros [| c s'] v r H; cbn [Json.scan_once] in H; [discriminate H |].
      cbn [length].
      destruct (c =? 34).
      { destruct (Json.scanstring s' []) as [[text r0] |] eqn:E; [| discriminate H].
        apply (scanstring_shorter (length s')) in E; [| lia].
        inversion H; subst. lia. }
      destruct (c =? 123).
      { destruct depth as [| depth']; [discriminate H |].
        destruct (Json.skip_ws s') as [| x r0] eqn:E; [discriminate H |].
        apply skip_ws_cons in E.
        destruct (x =? 125); [inversion H; subst; lia |].
        destruct (x =? 34); [| discriminate H].
        apply (proj1 (proj2 (IH depth'))) in H. lia. }
      destruct (c =? 91).
      { destruct depth as [| depth']; [discriminate H |].
        destruct (Json.skip_ws s') as [| x r0] eqn:E; [discriminate H |].
        apply skip_ws_cons in E.
        destruct (x =? 93); [inversion H; subst; lia |].
        apply (proj2 (proj2 (IH depth'))) in H. cbn [length] in H. lia. }
      apply scan_constant_shorter in H. cbn [length] in H. exact H.
    + intros s pairs v r H. cbn [Json.object_pairs] in H.
      destruct (Json.scanstring s []) as [[key s1] |] eqn:E1; [| discriminate H].
      apply (scanstring_shorter (length s)) in E1; [| lia].
      destruct (Json.skip_ws s1) as [| colon s2] eqn:E2; [discriminate H |].
      apply skip_ws_cons in E2.
      destruct (colon =? 58); [| discriminate H].
      destruct (Json.scan_once fuel depth (Json.skip_ws s2)) as [e | [value s3]] eqn:E3;
        [discriminate H |].
      apply (proj1 (IH depth)) in E3.
      pose proof (lstrip_with_length Json.is_ws s2) as L2.
      fold (Json.skip_ws s2) in L2.
      cbn zeta in H.
      destruct (Json.skip_ws s3) as [| x s4] eqn:E4; [discriminate H |].
      apply skip_ws_cons in E4.
      destruct (x =? 125); [inversion H; subst; lia |].
      destruct (x =? 44); [| discriminate H].
      destruct (Json.skip_ws s4) as [| q s5] eqn:E5; [discriminate H |].
      apply skip_ws_cons in E5.
      destruct (q =? 34); [| discriminate H].
      apply (proj1 (proj2 (IH depth))) in H. lia.
    + intros s values v r H. cbn [Json.array_values] in H.
      destruct (Json.scan_once fuel depth s) as [e | [value s1]] eqn:E1;
        [discriminate H |].
      apply (proj1 (IH depth)) in E1.
      cbn zeta in H.
      destruct (Json.skip_ws s1) as [| x s2] eqn:E2; [discriminate H |].
      apply skip_ws_cons in E2.
      destruct (x =? 93); [inversion H; subst; lia |].
      destruct (x =? 44); [| discriminate H].
      apply (proj2 (proj2 (IH depth))) in H.
      pose proof (lstrip_with_length Json.is_ws s2) as L2.
      fold (Json.skip_ws s2) in L2. lia.
Qed.

(** With more fuel than twice the length of the text (and one more for an
    array), the result is the same for any amount of fuel. *)
Lemma scan_fuel (f1 : nat) :
  forall (f2 depth : nat),
    (forall s, (2 * length s < f1)%nat -> (2 * length s < f2)%nat ->
               Json.scan_once f1 depth s = Json.scan_once f2 depth s)
    /\ (forall s pairs, (2 * length s < f1)%nat -> (2 * length s < f2)%nat ->
                        Json.object_pairs f1 depth s pairs
                        = Json.object_pairs f2 depth s pairs)
    /\ (forall s values, (2 * length s + 1 < f1)%nat -> (2 * length s + 1 < f2)%nat ->
                         Json.array_values f1 depth s values
                         = Json.array_values f2 depth s values).
Proof.
  induction f1 as [| f1 IH]; intros f2 depth.
  - repeat split; intros; lia.
  - destruct f2 as [| f2]; [repeat split; intros; lia |].
    split; [| split].
    + intros [| c s'] H1 H2; cbn [Json.scan_once]; [reflexivity |].
      cbn [length] in H1, H2.
      destruct (c =? 34); [reflexivity |].
      destruct (c =? 123).
      { destruct depth as [| depth']; [reflexivity |].
        destruct (Json.skip_ws s') as [| x r0] eqn:E; [reflexivity |].
        apply skip_ws_cons in E.
        destruct (x =? 125); [reflexivity |].
        destruct (x =? 34); [| reflexivity].
        apply (proj1 (proj2 (IH f2 depth'))); lia. }
      destruct (c =? 91).
      { destruct depth as [| depth']; [reflexivity |].
        destruct (Json.skip_ws s') as [| x r0] eqn:E; [reflexivity |].
        apply skip_ws_cons in E.
        destruct (x =? 93); [reflexivity |].
        apply (proj2 (proj2 (IH f2 depth'))); cbn [length]; lia. }
      reflexivity.
    + intros s pairs H1 H2. cbn [Json.object_pairs].
      destruct (Json.scanstring s []) as [[key s1] |] eqn:E1; [| reflexivity].
      apply (scanstring_shorter (length s)) in E1; [| lia].
      destruct (Json.skip_ws s1) as [| colon s2] eqn:E2; [reflexivity |].
      apply skip_ws_cons in E2.
      destruct (colon =? 58); [| reflexivity].
      pose proof (lstrip_with_length Json.is_ws s2) as L2.
      fold (Json.skip_ws s2) in L2.
      rewrite (proj1 (IH f2 depth) (Json.skip_ws s2)) by lia.
      destruct (Json.scan_once f2 depth (Json.skip_ws s2)) as [e | [value s3]] eqn:E3;
        [reflexivity |].
      apply (proj1 (scan_shorter f2 depth)) in E3.
      cbn zeta.
      destruct (Json.skip_ws s3) as [| x s4] eqn:E4; [reflexivity |].
      apply skip_ws_cons in E4.
      destruct (x =? 125); [reflexivity |].
      destruct (x =? 44); [| reflexivity].
      destruct (Json.skip_ws s4) as [| q s5] eqn:E5; [reflexivity |].
      apply skip_ws_cons in E5.
      destruct (q =? 34); [| reflexivity].
      apply (proj1 (proj2 (IH f2 depth))); lia.
    + intros s values H1 H2. cbn [Json.array_values].
      rewrite (proj1 (IH f2 depth) s) by lia.
      destruct (Json.scan_once f2 depth s) as [e | [value s1]] eqn:E1;
        [reflexivity |].
      apply (proj1 (scan_shorter f2 depth)) in E1.
      cbn zeta.
      destruct (Json.skip_ws s1) as [| x s2] eqn:E2; [reflexivity |].
      apply skip_ws_cons in E2.
      destruct (x =? 93); [reflexivity |].
      destruct (x =? 44); [| reflexivity].
      pose proof (lstrip_with_length Json.is_ws s2) as L2.
      fold (Json.skip_ws s2) in L2.
      apply (proj2 (proj2 (IH f2 depth))); lia.
Qed.

(** The fuel [loads] gives the decoder is enough: more fuel would give the
    same result. *)
Lemma loads_fuel_enough (depth : nat) (s : list N) (fuel : nat) :
  (2 * length s < fuel)%nat ->
  Json.scan_once fuel depth (Json.skip_ws s)
  = Json.scan_once (S (2 * length s)) depth (Json.skip_ws s).
Proof.
  intros H. pose proof (lstrip_with_length Json.is_ws s) as L.
  fold (Json.skip_ws s) in L.
  apply (proj1 (scan_fuel fuel (S (2 * length s)) depth)); lia.
Qed.

(** ** The message of an inbound frame *)

Lemma assoc_get_find (items : list (list N * pyval)) (k : list N) (dflt : pyval) :
  assoc_get items k dflt
  = match assoc_find items k with Some v => v | None => dflt end.
Proof.
  induction items as [| [k' v] items IH]; cbn; [reflexivity |].
  destruct (decide (k' = k)); [reflexivity | exact IH].
Qed.

Lemma assoc_find_In (items : list (list N * pyval)) (k : list N) (v : pyval) :
  assoc_find items k = Some v -> In (k, v) items.
Proof.
  induction items as [| [k' v'] items IH]; cbn; [discriminate |].
  destruct (decide (k' = k)) as [-> | _].
  - intros H. inversion H. left. reflexivity.
  - intros H. right. apply IH, H.
Qed.

Lemma assoc_find_None (items : list (list N * pyval)) (k : list N) :
  assoc_find items k = None <-> ~ In k (List.map fst items).
Proof.
  induction items as [| [k' v'] items IH]; cbn; [tauto |].
  destruct (decide (k' = k)) as [-> | Hne].
  - split; [discriminate | intros H; exfalso; apply H; left; reflexivity].
  - rewrite IH. tauto.
Qed.

(** C3, as stated, fails: the frame [{}] is a JSON object with no
    [message] field, and the message is the empty string, not the frame. *)
Lemma frame_rule_as_stated_fails :
  Json.loads 1000 (cps "{}") = Return (PyDict [])
  /\ frame_message 1000 (cps "{}") = Return (PyStr [])
  /\ ~ frame_rule_as_stated 1000 (cps "{}").
Proof.
  split; [reflexivity |]. split; [reflexivity |].
  unfold frame_rule_as_stated. intros H. vm_compute in H. discriminate H.
Qed.

(** C3, amended: the decoding of a frame never raises.  A frame that
    decodes to a JSON object gives the value of its [message] field, or the
    empty string when the object has no such field; every other frame
    (one [json.loads] refuses, or one that decodes to a value that is not an
    object) gives the raw frame as the text. *)
Theorem frame_message_rule (depth : nat) (data : list N) :
  (exists v : pyval, frame_message depth data = Return v)
  /\ (forall items v,
        Json.loads depth data = Return (PyDict items) ->
        assoc_find items (cps "message") = Some v ->
        In (cps "message", v) items /\ frame_message depth data = Return v)
  /\ (forall items,
        Json.loads depth data = Return (PyDict items) ->
        ~ In (cps "message") (List.map fst items) ->
        frame_message depth data = Return (PyStr []))
  /\ ((forall items, Json.loads depth data <> Return (PyDict items)) ->
      frame_message depth data = Return (PyStr data)).
Proof.
  unfold frame_message, try_except, py_get. repeat split.
  - destruct (Json.loads depth data) as [[] |]; eauto.
  - apply assoc_find_In. assumption.
  - rewrite H. rewrite assoc_get_find, H0. reflexivity.
  - intros items E Hn. rewrite E. rewrite assoc_get_find.
    apply assoc_find_None in Hn. rewrite Hn. reflexivity.
  - intros Hn. destruct (Json.loads depth data) as [[] |]; try reflexivity.
    exfalso. eapply Hn. reflexivity.
Qed.

Lemma frame_message_rule_witness :
  frame_message 1000 hi_frame = Return (PyStr (cps "hi"))
  /\ frame_message 1000 (cps "{}") = Return (PyStr [])
  /\ frame_message 1000 (cps "[1, 2]") = Return (PyStr (cps "[1, 2]"))
  /\ frame_message 1000 (cps "hi there") = Return (PyStr (cps "hi there")).
Proof.
  split; [| split; [| split]].
  - apply (proj1 (proj2 (frame_message_rule 1000 hi_frame))
             [(cps "message", PyStr (cps "hi"))]); reflexivity.
  - apply (proj1 (proj2 (proj2 (frame_message_rule 1000 (cps "{}")))) []);
      [reflexivity | intros []].
  - apply (proj2 (proj2 (proj2 (frame_message_rule 1000 (cps "[1, 2]"))))).
    intros items H. vm_compute in H. discriminate H.
  - apply (proj2 (proj2 (proj2 (frame_message_rule 1000 (cps "hi there"))))).
    intros items H. vm_compute in H. discriminate H.
Defined.

(** ** The end-to-end scenarios of the specification

    Computed with the ASCII tables, in a world with an empty log and with
    nothing failing. *)

Example scenario_greeting :
  let r := @respond ascii_tables (cps "Hello there") (cps "guest") None
             calm_env empty_world in
  reply_intent (returned r) = {| intent := cps "greeting"; confidence := 0.95 |}
  /\ reply (returned r)
     = cps "Hello! I can help with mobile network support, account queries, or basic health triage. How can I help today?".
Proof. vm_compute. split; reflexivity. Qed.

Example scenario_no_signal :
  let r := @respond ascii_tables (cps "I have no signal at home") (cps "guest") None
             calm_env empty_world in
  intent (reply_intent (returned r)) = cps "network_issue"
  /\ firstn 46 (reply (returned r))
     = cps "I understand you're seeing no network signal. ".
Proof. vm_compute. split; reflexivity. Qed.

Example scenario_balance :
  let r := @respond ascii_tables (cps "what's my balance") (cps "guest") None
             calm_env empty_world in
  intent (reply_intent (returned r)) = cps "account_query"
  /\ reply (returned r)
     = cps "Your current prepaid balance is " ++ fake_balance
       ++ cps ". Would you like to recharge now?".
Proof. vm_compute. split; reflexivity. Qed.

Example scenario_fallback :
  let r := @respond ascii_tables (cps "xyz nonsense qqq") (cps "guest") None
             calm_env empty_world in
  reply_intent (returned r) = FALLBACK
  /\ reply (returned r) = @handle_fallback (cps "xyz nonsense qqq") ∅.
Proof. vm_compute. split; reflexivity. Qed.

Example scenario_stream :
  let w1 := snd (connect {| ws_id := 1 |} (cps "s1") calm_env empty_world) in
  let r := @respond ascii_tables (cps "hi") (cps "s1") None calm_env w1 in
  let w3 := snd (disconnect (cps "s1") calm_env (snd r)) in
  active_connections w1 !! cps "s1" = Some {| ws_id := 1 |}
  /\ frame_message 1000 hi_frame = Return (PyStr (cps "hi"))
  /\ intent (reply_intent (returned r)) = cps "greeting"
  /\ List.map row_role (messages (snd r)) = [cps "user"; cps "bot"]
  /\ active_connections w3 !! cps "s1" = None
  /\ send_personal_message (cps "late") (cps "s1") calm_env w3 = (Return PyNone, w3).
Proof.
  cbn zeta. split; [apply lookup_insert_eq |].
  split; [reflexivity |]. split; [reflexivity |]. split; [reflexivity |].
  assert (E : active_connections
                (snd (disconnect (cps "s1") calm_env
                   (snd (@respond ascii_tables (cps "hi") (cps "s1") None calm_env
                      (snd (connect {| ws_id := 1 |} (cps "s1") calm_env empty_world))))))
              !! cps "s1" = None).
  { rewrite disconnect_world. apply lookup_delete_eq. }
  split; [exact E |].
  rewrite send_personal_message_run, E. reflexivity.
Qed.

(** * Further properties of the code *)

(** ** The outcomes of log_message and respond *)

Lemma first_fault_at (env : Env) (from k n : nat) :
  first_fault env from k -> n = (from + k)%nat -> io_fault env n = true.
Proof. intros [_ H] ->. exact H. Qed.

Lemma first_fault_before (env : Env) (from k n : nat) :
  first_fault env from k -> (from <= n < from + k)%nat -> io_fault env n = false.
Proof. intros [H _] Hn. apply (no_fault_at env from k n H Hn). Qed.

(** [log_message], step by step. *)
Lemma log_message_run (session_id role message : list N) (env : Env) (w : World) :
  log_message session_id role message env w
  = let row := {| row_session_id := session_id; row_role := role;
                  row_message := message;
                  row_timestamp := utcnow_isoformat env (clock_reads w) |} in
    if io_fault env (io_steps w) then
      (Raise DatabaseError, stepped w)
    else if io_fault env (S (io_steps w)) then
      (Raise DatabaseError,
       {| messages := messages w; active_connections := active_connections w;
          outbox := outbox w; clock_reads := S (clock_reads w);
          io_steps := 2 + io_steps w |})
    else if io_fault env (S (S (io_steps w))) then
      (Raise DatabaseError,
       {| messages := messages w; active_connections := active_connections w;
          outbox := outbox w; clock_reads := S (clock_reads w);
          io_steps := 3 + io_steps w |})
    else if io_fault env (S (S (S (io_steps w)))) then
      (Raise DatabaseError,
       {| messages := messages w ++ [row];
          active_connections := active_connections w;
          outbox := outbox w; clock_reads := S (clock_reads w);
          io_steps := 4 + io_steps w |})
    else (Return tt, logged env w session_id role message).
Proof.
  unfold log_message, bind, io_step, utcnow, insert_row, logged, stepped. cbn.
  destruct (io_fault env (io_steps w)); cbn; [reflexivity |].
  destruct (io_fault env (S (io_steps w))); cbn; [reflexivity |].
  destruct (io_fault env (S (S (io_steps w)))); cbn; [reflexivity |].
  destruct (io_fault env (S (S (S (io_steps w))))); cbn; reflexivity.
Qed.

(** A failure before the commit: nothing is written. *)
Lemma log_message_fails_early (session_id role message : list N) (env : Env)
    (w : World) (k : nat) :
  (k < 3)%nat -> first_fault env (io_steps w) k ->
  exists w', log_message session_id role message env w = (Raise DatabaseError, w')
             /\ messages w' = messages w
             /\ active_connections w' = active_connections w
             /\ outbox w' = outbox w.
Proof.
  intros Hk Hf. rewrite log_message_run. cbn zeta.
  assert (Hc : k = 0%nat \/ k = 1%nat \/ k = 2%nat) by lia.
  destruct Hc as [-> | [-> | ->]].
  - rewrite (first_fault_at env (io_steps w) 0 (io_steps w) Hf) by lia.
    eexists. repeat split.
  - rewrite (first_fault_before env (io_steps w) 1 (io_steps w) Hf) by lia.
    rewrite (first_fault_at env (io_steps w) 1 (S (io_steps w)) Hf) by lia.
    eexists. repeat split.
  - rewrite (first_fault_before env (io_steps w) 2 (io_steps w) Hf) by lia.
    rewrite (first_fault_before env (io_steps w) 2 (S (io_steps w)) Hf) by lia.
    rewrite (first_fault_at env (io_steps w) 2 (S (S (io_steps w))) Hf) by lia.
    eexists. repeat split.
Qed.

(** A failure of the close, after the commit: the row is written. *)
Lemma log_message_fails_late (session_id role message : list N) (env : Env)
    (w : World) :
  first_fault env (io_steps w) 3 ->
  exists w', log_message session_id role message env w = (Raise DatabaseError, w')
             /\ messages w' = messages w ++
                  [ {| row_session_id := session_id; row_role := role;
                       row_message := message;
                       row_timestamp := utcnow_isoformat env (clock_reads w) |} ]
             /\ active_connections w' = active_connections w
             /\ outbox w' = outbox w.
Proof.
  intros Hf. rewrite log_message_run. cbn zeta.
  rewrite (first_fault_before env (io_steps w) 3 (io_steps w) Hf) by lia.
  rewrite (first_fault_before env (io_steps w) 3 (S (io_steps w)) Hf) by lia.
  rewrite (first_fault_before env (io_steps w) 3 (S (S (io_steps w))) Hf) by lia.
  rewrite (first_fault_at env (io_steps w) 3 (S (S (S (io_steps w)))) Hf) by lia.
  eexists. repeat split.
Qed.

(** Whatever the outcome, [log_message] touches only the log, the clock
    and the count of steps, and the log only at its end. *)
Lemma log_message_frame (session_id role message : list N) (env : Env) (w : World) :
  let w' := snd (log_message session_id role message env w) in
  (messages w' = messages w
   \/ messages w' = messages w ++
        [ {| row_session_id := session_id; row_role := role;
             row_message := message;
             row_timestamp := utcnow_isoformat env (clock_reads w) |} ])
  /\ active_connections w' = active_connections w
  /\ outbox w' = outbox w
  /\ (forall e, fst (log_message session_id role message env w) = Raise e ->
                e = DatabaseError).
Proof.
  rewrite log_message_run. cbn zeta.
  destruct (io_fault env (io_steps w)); cbn;
    [repeat split; [left; reflexivity | intros e H; inversion H; reflexivity] |].
  destruct (io_fault env (S (io_steps w))); cbn;
    [repeat split; [left; reflexivity | intros e H; inversion H; reflexivity] |].
  destruct (io_fault env (S (S (io_steps w)))); cbn;
    [repeat split; [left; reflexivity | intros e H; inversion H; reflexivity] |].
  destruct (io_fault env (S (S (S (io_steps w))))); cbn;
    repeat split; try (right; reflexivity); intros e H; inversion H; reflexivity.
Qed.

(** X1: [log_message] either returns with exactly its row added to the
    log, or raises the error of the database: with nothing written when a
    step before the end of the commit fails, with the row written when only
    the close fails.  The registry and the frames sent are never touched. *)
Theorem log_message_outcomes (session_id role message : list N) (env : Env)
    (w : World) :
  let r := log_message session_id role message env w in
  let row := {| row_session_id := session_id; row_role := role;
                row_message := message;
                row_timestamp := utcnow_isoformat env (clock_reads w) |} in
  (forall k, (k < 3)%nat -> first_fault env (io_steps w) k ->
             fst r = Raise DatabaseError /\ messages (snd r) = messages w)
  /\ (first_fault env (io_steps w) 3 ->
      fst r = Raise DatabaseError /\ messages (snd r) = messages w ++ [row])
  /\ (no_fault env (io_steps w) 4 ->
      fst r = Return tt /\ messages (snd r) = messages w ++ [row]
      /\ clock_reads (snd r) = S (clock_reads w))
  /\ active_connections (snd r) = active_connections w
  /\ outbox (snd r) = outbox w.
Proof.
  cbn zeta. split; [| split; [| split]].
  - intros k Hk Hf.
    destruct (log_message_fails_early session_id role message env w k Hk Hf)
      as (w' & E & Hm & _).
    rewrite E. split; [reflexivity | exact Hm].
  - intros Hf.
    destruct (log_message_fails_late session_id role message env w Hf)
      as (w' & E & Hm & _).
    rewrite E. split; [reflexivity | exact Hm].
  - intros Hn. rewrite (log_message_succeeds _ _ _ _ _ Hn).
    repeat split.
  - pose proof (log_message_frame session_id role message env w) as H.
    cbn zeta in H. tauto.
Qed.

Lemma log_message_outcomes_witness :
  messages (snd (log_message (cps "s1") (cps "user") (cps "hi") (fault_at 2) empty_world)) = []
  /\ List.map row_message
       (messages (snd (log_message (cps "s1") (cps "user") (cps "hi") (fault_at 3) empty_world)))
     = [cps "hi"]
  /\ fst (log_message (cps "s1") (cps "user") (cps "hi") calm_env empty_world) = Return tt.
Proof.
  pose proof (log_message_outcomes (cps "s1") (cps "user") (cps "hi") (fault_at 2)
                empty_world) as H2.
  pose proof (log_message_outcomes (cps "s1") (cps "user") (cps "hi") (fault_at 3)
                empty_world) as H3.
  pose proof (log_message_outcomes (cps "s1") (cps "user") (cps "hi") calm_env
                empty_world) as H4.
  cbn zeta in H2, H3, H4.
  destruct H2 as [H2 _]. destruct H3 as [_ [H3 _]]. destruct H4 as [_ [_ [H4 _]]].
  split; [| split].
  - apply (H2 2%nat); [lia |]. split; [| reflexivity].
    intros i Hi. cbn. destruct i as [| [| i]]; [reflexivity | reflexivity | lia].
  - assert (F : first_fault (fault_at 3) (io_steps empty_world) 3).
    { split; [| reflexivity]. intros i Hi. cbn.
      destruct i as [| [| [| i]]]; [reflexivity | reflexivity | reflexivity | lia]. }
    rewrite (proj2 (H3 F)). reflexivity.
  - apply H4. intros i _. reflexivity.
Defined.

Section RespondOutcomes.

Context {U : Unicode}.

(** [respond] as its two calls of [log_message] and the reading of the
    clock. *)
Lemma respond_unfold (message session_id : list N)
    (context : option (gmap (list N) pyval)) (env : Env) (w : World) :
  respond message session_id context env w
  = match log_message session_id (cps "user") message env w with
    | (Raise e, w1) => (Raise e, w1)
    | (Return _, w1) =>
        let reply_ := dispatch (intent (detect_intent message)) message
                        (context_or_empty context) in
        match log_message session_id (cps "bot") reply_ env w1 with
        | (Raise e, w2) => (Raise e, w2)
        | (Return _, w2) =>
            (Return {| reply := reply_; reply_intent := detect_intent message;
                       timestamp := utcnow_isoformat env (clock_reads w2) |},
             {| messages := messages w2;
                active_connections := active_connections w2;
                outbox := outbox w2;
                clock_reads := S (clock_reads w2);
                io_steps := io_steps w2 |})
        end
    end.
Proof.
  unfold respond, dispatch, context_or_empty. cbn zeta. unfold bind at 1.
  destruct (log_message session_id (cps "user") message env w) as [[[] | e] w1];
    [| reflexivity].
  unfold bind at 1.
  match goal with
  | |- context [log_message session_id (cps "bot") ?r env w1] =>
      destruct (log_message session_id (cps "bot") r env w1) as [[[] | e] w2]
  end; reflexivity.
Qed.

(** The world and the envelope of a call of [respond] that returned. *)
Lemma respond_returns_world (message session_id : list N)
    (context : option (gmap (list N) pyval)) (env : Env) (w w' : World) (e : Envelope) :
  respond message session_id context env w = (Return e, w') ->
  w' = {| messages := messages w ++
            [user_row session_id message (utcnow_isoformat env (clock_reads w));
             bot_row session_id (reply e) (utcnow_isoformat env (S (clock_reads w)))];
          active_connections := active_connections w;
          outbox := outbox w;
          clock_reads := 3 + clock_reads w;
          io_steps := 8 + io_steps w |}.
Proof.
  rewrite respond_unfold.
  destruct (log_message session_id (cps "user") message env w) as [[[] | e1] w1] eqn:E1;
    [| discriminate].
  cbn zeta.
  match goal with
  | |- context [log_message session_id (cps "bot") ?r env w1] =>
      destruct (log_message session_id (cps "bot") r env w1) as [[[] | e2] w2] eqn:E2
  end; [| discriminate].
  apply log_message_returns in E1. apply log_message_returns in E2.
  intros H. inversion H. subst. cbn. rewrite <- app_assoc. reflexivity.
Qed.

(** X2: when a step on the database fails, [respond] raises the error of
    the database and returns no envelope; the log then has no new row when
    the failure is before the first commit, the row of the user alone when
    it is between the two commits, and both rows when only the last close
    fails. *)
Theorem respond_failure_rows (message session_id : list N)
    (context : option (gmap (list N) pyval)) (env : Env) (w : World) (k : nat) :
  (k < 8)%nat -> first_fault env (io_steps w) k ->
  let r := respond message session_id context env w in
  let user := user_row session_id message (utcnow_isoformat env (clock_reads w)) in
  let bot := bot_row session_id
               (dispatch (intent (detect_intent message)) message
                  (context_or_empty context))
               (utcnow_isoformat env (S (clock_reads w))) in
  fst r = Raise DatabaseError
  /\ messages (snd r)
     = messages w ++ (if (k <? 3)%nat then []
                      else if (k <? 7)%nat then [user]
                      else [user; bot]).
Proof.
  intros Hk Hf. cbn zeta. rewrite respond_unfold.
  destruct (Nat.ltb_spec k 3%nat) as [H3 | H3].
  { destruct (log_message_fails_early session_id (cps "user") message env w k H3 Hf)
      as (w1 & E & Hm & _).
    rewrite E. cbn. rewrite Hm, app_nil_r. split; reflexivity. }
  destruct (Nat.eq_dec k 3%nat) as [-> | Hne].
  { destruct (log_message_fails_late session_id (cps "user") message env w Hf)
      as (w1 & E & Hm & _).
    rewrite E. cbn. rewrite Hm. split; reflexivity. }
  assert (Hok : no_fault env (io_steps w) 4).
  { intros i Hi. apply (first_fault_before env (io_steps w) k); [exact Hf | lia]. }
  rewrite (log_message_succeeds _ _ _ _ _ Hok). cbn zeta.
  assert (Hf2 : first_fault env (io_steps (logged env w session_id (cps "user") message))
                  (k - 4)%nat).
  { cbn [io_steps logged]. split.
    - intros i Hi. apply (first_fault_before env (io_steps w) k); [exact Hf | lia].
    - apply (first_fault_at env (io_steps w) k); [exact Hf | lia]. }
  destruct (Nat.ltb_spec k 7%nat) as [H7 | H7].
  - destruct (log_message_fails_early session_id (cps "bot")
                (dispatch (intent (detect_intent message)) message
                   (context_or_empty context))
                env _ (k - 4)%nat ltac:(lia) Hf2) as (w2 & E & Hm & _).
    rewrite E. cbn. rewrite Hm. split; reflexivity.
  - replace (k - 4)%nat with 3%nat in Hf2 by lia.
    destruct (log_message_fails_late session_id (cps "bot")
                (dispatch (intent (detect_intent message)) message
                   (context_or_empty context))
                env _ Hf2) as (w2 & E & Hm & _).
    rewrite E. cbn. rewrite Hm. cbn. rewrite <- app_assoc. split; reflexivity.
Qed.

(** X3: a call of [respond] that returns has read the clock three times:
    the row of the user, the row of the bot and the envelope carry three
    successive readings, in this order, not one common instant. *)
Theorem respond_reads_clock_thrice (message session_id : list N)
    (context : option (gmap (list N) pyval)) (env : Env) (w w' : World) (e : Envelope) :
  respond message session_id context env w = (Return e, w') ->
  List.map row_timestamp (skipn (length (messages w)) (messages w'))
  = [utcnow_isoformat env (clock_reads w);
     utcnow_isoformat env (1 + clock_reads w)]
  /\ timestamp e = utcnow_isoformat env (2 + clock_reads w)
  /\ clock_reads w' = (3 + clock_reads w)%nat.
Proof.
  intros H. pose proof (respond_returns_world _ _ _ _ _ _ _ H) as Hw.
  apply respond_returns in H. destruct H as (_ & _ & Ht & _).
  subst w'. cbn [messages clock_reads].
  rewrite skipn_app, skipn_all, Nat.sub_diag. cbn.
  repeat split. exact Ht.
Qed.

(** X4: whatever its outcome, [respond] leaves the registry and the frames
    sent as they were, keeps the rows the log had, and raises nothing but
    the error of the database. *)
Theorem respond_frame (message session_id : list N)
    (context : option (gmap (list N) pyval)) (env : Env) (w : World) :
  let r := respond message session_id context env w in
  active_connections (snd r) = active_connections w
  /\ outbox (snd r) = outbox w
  /\ (exists new, messages (snd r) = messages w ++ new /\ (length new <= 2)%nat)
  /\ (forall e, fst r = Raise e -> e = DatabaseError).
Proof.
  cbn zeta. rewrite respond_unfold.
  pose proof (log_message_frame session_id (cps "user") message env w) as F1.
  cbn zeta in F1.
  destruct (log_message session_id (cps "user") message env w) as [[[] | e1] w1].
  - cbn zeta.
    match goal with
    | |- context [log_message session_id (cps "bot") ?r env w1] =>
        pose proof (log_message_frame session_id (cps "bot") r env w1) as F2;
        cbn zeta in F2;
        destruct (log_message session_id (cps "bot") r env w1) as [[[] | e2] w2]
    end; cbn [fst snd] in *;
      destruct F1 as (M1 & C1 & O1 & _); destruct F2 as (M2 & C2 & O2 & R2);
      cbn [messages active_connections outbox];
      (split; [congruence |]); (split; [congruence |]);
      (split; [| first [intros e H; discriminate H
                       | intros e H; inversion H; subst; apply R2; reflexivity]]);
      destruct M1 as [M1 | M1]; destruct M2 as [M2 | M2]; rewrite M2, M1;
        try rewrite <- app_assoc;
        first [exists []; rewrite app_nil_r; split; [reflexivity | cbn; lia]
              | eexists; split; [reflexivity | cbn; lia]].
  - cbn [fst snd] in *. destruct F1 as (M1 & C1 & O1 & R1).
    split; [exact C1 |]. split; [exact O1 |]. split.
    + destruct M1 as [M1 | M1]; rewrite M1;
        first [exists []; rewrite app_nil_r; split; [reflexivity | cbn; lia]
              | eexists; split; [reflexivity | cbn; lia]].
    + intros e H. inversion H; subst. apply R1. reflexivity.
Qed.

End RespondOutcomes.

Lemma respond_failure_rows_witness :
  let r := @respond ascii_tables (cps "hi") (cps "s1") None (fault_at 5) empty_world in
  fst r = Raise DatabaseError
  /\ List.map row_role (messages (snd r)) = [cps "user"].
Proof.
  cbn zeta.
  assert (F : first_fault (fault_at 5) (io_steps empty_world) 5).
  { split; [| reflexivity]. intros i Hi. cbn.
    do 5 (destruct i as [| i]; [reflexivity |]). lia. }
  pose proof (@respond_failure_rows ascii_tables (cps "hi") (cps "s1") None
                (fault_at 5) empty_world 5%nat ltac:(lia) F) as H.
  cbn zeta in H. destruct H as [H1 H2].
  split; [exact H1 |]. rewrite H2. reflexivity.
Defined.

Lemma respond_reads_clock_thrice_witness :
  timestamp (returned first_call) = utcnow_isoformat calm_env 2
  /\ clock_reads (snd first_call) = 3%nat.
Proof.
  pose proof (@respond_reads_clock_thrice ascii_tables (cps "my bill") (cps "s1") None
                calm_env empty_world (snd first_call) (returned first_call)) as H.
  destruct H as (_ & Ht & Hc); [vm_compute; reflexivity |].
  split; [exact Ht | exact Hc].
Defined.

Lemma respond_frame_witness :
  fst (@respond ascii_tables (cps "hi") (cps "s1") None (fault_at 13) busy_world)
  = Raise DatabaseError.
Proof.
  pose proof (@respond_frame ascii_tables (cps "hi") (cps "s1") None (fault_at 13)
                busy_world) as H.
  cbn zeta in H. destruct H as (_ & _ & _ & H).
  destruct (fst (@respond ascii_tables (cps "hi") (cps "s1") None (fault_at 13) busy_world))
    as [e | e] eqn:E.
  - vm_compute in E. discriminate E.
  - rewrite (H e eq_refl). reflexivity.
Defined.

(** ** The replies *)

Section Replies.

Context {U : Unicode}.

(** The entry of [INTENT_HANDLERS] for a label, read off the literal. *)
Lemma lookup_entry (label : list N) (h : Handler) :
  INTENT_HANDLERS !! label = Some h ->
  In (label, h)
     [ (cps "network_issue", handle_network_issue);
       (cps "account_query", handle_account_query);
       (cps "symptom_check", handle_symptom_check);
       (cps "book_appointment", handle_book_appointment);
       (cps "greeting", handle_greeting);
       (cps "thanks", handle_thanks);
       (cps "fallback", handle_fallback) ].
Proof.
  intros E. unfold INTENT_HANDLERS in E.
  apply elem_of_list_to_map_2 in E. apply list_elem_of_In in E. exact E.
Qed.

Lemma dispatch_canned (label message : list N) (context : gmap (list N) pyval) :
  In label LABELS -> In (label, dispatch label message context) CANNED.
Proof.
  intros Hl. unfold dispatch, dict_get.
  destruct (lookup_label label Hl) as [h E]. rewrite E.
  apply lookup_entry in E. cbn [In] in E.
  repeat (destruct E as [E | E];
          [inversion E; subst h label; clear E;
           unfold handle_network_issue, handle_account_query, handle_symptom_check,
             handle_book_appointment, handle_greeting, handle_thanks, handle_fallback;
           repeat (match goal with
                   | |- context [if re_search ?r ?t then _ else _] =>
                       destruct (re_search r t)
                   end);
           unfold CANNED; cbn [In]; tauto |]).
  destruct E.
Qed.

(** X5: the reply is always one of eleven fixed texts, and it is one of
    the texts of the handler of the label: no part of the message of the
    user ever appears in a reply.  It holds for the dispatch on any
    registered label and for the envelope of any call of [respond]. *)
Theorem replies_are_canned (message : list N) :
  (forall label context,
      In label LABELS -> In (label, dispatch label message context) CANNED)
  /\ (forall session_id context env w e w',
        respond message session_id context env w = (Return e, w') ->
        In (intent (reply_intent e), reply e) CANNED).
Proof.
  split.
  - intros label context Hl. apply dispatch_canned, Hl.
  - intros session_id context env w e w' H. apply respond_returns in H.
    destruct H as (Hr & Hi & _). rewrite Hr, Hi.
    apply dispatch_canned, detect_intent_label.
Qed.

(** A handler gives the same reply when ASCII letters change case. *)
Lemma handlers_ignore_case (h : Handler) (text : list N) (context : gmap (list N) pyval) :
  In h HANDLERS -> Forall is_ascii text ->
  h (List.map ascii_upper text) context = h text context.
Proof.
  intros Hh Ha.
  assert (El : str_lower (List.map ascii_upper text) = str_lower text).
  { rewrite (str_lower_ascii _ (ascii_upper_is_ascii _ Ha)).
    rewrite (str_lower_ascii _ Ha). apply ascii_lower_upper. }
  unfold HANDLERS in Hh. cbn [In] in Hh.
  destruct Hh as [<- | [<- | [<- | [<- | [<- | [<- | [<- | []]]]]]]];
    unfold handle_network_issue, handle_symptom_check;
    rewrite ?El; reflexivity.
Qed.

(** X6: on ASCII text the case of the letters changes neither the intent
    nor the reply of [respond]. *)
Theorem respond_ignores_ascii_case (message session_id : list N)
    (context : option (gmap (list N) pyval)) :
  Forall is_ascii message ->
  forall env1 w1 e1 w1' env2 w2 e2 w2',
    respond (List.map ascii_upper message) session_id context env1 w1 = (Return e1, w1') ->
    respond message session_id context env2 w2 = (Return e2, w2') ->
    reply e1 = reply e2 /\ reply_intent e1 = reply_intent e2.
Proof.
  intros Ha env1 w1 e1 w1' env2 w2 e2 w2' H1 H2.
  apply respond_returns in H1. apply respond_returns in H2.
  destruct H1 as (R1 & I1 & _). destruct H2 as (R2 & I2 & _).
  assert (Ei : detect_intent (List.map ascii_upper message) = detect_intent message).
  { rewrite (detect_intent_ascii U _ (ascii_upper_is_ascii _ Ha)).
    rewrite (detect_intent_ascii U _ Ha).
    unfold detect_intent. cbn [str_lower ascii_tables].
    rewrite ascii_lower_upper. reflexivity. }
  rewrite R1, R2, I1, I2, Ei. split; [| reflexivity].
  unfold dispatch. apply handlers_ignore_case; [apply chosen_handler | exact Ha].
Qed.

End Replies.

Lemma replies_are_canned_witness :
  In (cps "greeting", @dispatch ascii_tables (cps "greeting") (cps "Hello there") ∅) CANNED
  /\ In (intent (reply_intent (returned first_call)), reply (returned first_call)) CANNED.
Proof.
  pose proof (@replies_are_canned ascii_tables (cps "Hello there")) as [H1 _].
  pose proof (@replies_are_canned ascii_tables (cps "my bill")) as [_ H2].
  split.
  - apply H1. unfold LABELS. cbn [In]. tauto.
  - apply (H2 (cps "s1") None calm_env empty_world (returned first_call) (snd first_call)).
    vm_compute. reflexivity.
Defined.

Lemma respond_ignores_ascii_case_witness :
  reply (returned shouted_call) = reply (returned first_call)
  /\ reply_intent (returned shouted_call) = reply_intent (returned first_call).
Proof.
  apply (@respond_ignores_ascii_case ascii_tables (cps "my bill") (cps "s1") None
           ltac:(apply forallb_is_ascii; reflexivity)
           calm_env empty_world (returned shouted_call) (snd shouted_call)
           calm_env empty_world (returned first_call) (snd first_call)).
  - vm_compute. reflexivity.
  - vm_compute. reflexivity.
Defined.

(** ** White space around the message *)

Lemma lstrip_with_blank_app (sp : N -> bool) (p s : list N) :
  Forall (fun c => sp c = true) p -> lstrip_with sp (p ++ s) = lstrip_with sp s.
Proof.
  induction 1 as [| c p Hc Hp IH]; cbn; [reflexivity |].
  rewrite Hc. exact IH.
Qed.

Lemma lstrip_with_app_blank (sp : N -> bool) (s p : list N) :
  Forall (fun c => sp c = true) p ->
  lstrip_with sp (s ++ p)
  = match lstrip_with sp s with
    | [] => []
    | c :: r => (c :: r) ++ p
    end.
Proof.
  intros Hp. induction s as [| c s IH]; cbn.
  - rewrite <- (app_nil_r p). rewrite (lstrip_with_blank_app sp p [] Hp). reflexivity.
  - destruct (sp c); [exact IH | reflexivity].
Qed.

Lemma strip_with_padded (sp : N -> bool) (p1 s p2 : list N) :
  Forall (fun c => sp c = true) p1 -> Forall (fun c => sp c = true) p2 ->
  strip_with sp (p1 ++ s ++ p2) = strip_with sp s.
Proof.
  intros H1 H2. unfold strip_with.
  rewrite (lstrip_with_blank_app sp p1 _ H1).
  rewrite (lstrip_with_app_blank sp s p2 H2).
  destruct (lstrip_with sp s) as [| c r]; [reflexivity |].
  rewrite rev_app_distr.
  rewrite (lstrip_with_blank_app sp (rev p2) _ (Forall_rev H2)). reflexivity.
Qed.

Lemma ascii_blank_is_ascii (p : list N) : ascii_blank p -> Forall is_ascii p.
Proof.
  unfold ascii_blank. intros H. eapply Forall_impl; [exact H |].
  intros c Hc. cbn beta in Hc.
  unfold ascii_isspace in Hc. unfold is_ascii.
  apply orb_true_iff in Hc.
  destruct Hc as [Hc | Hc]; apply andb_true_iff in Hc; destruct Hc as [_ Hc];
    apply N.leb_le in Hc; lia.
Qed.

Lemma ascii_blank_lower (p : list N) : ascii_blank p -> List.map ascii_lower p = p.
Proof.
  unfold ascii_blank. induction 1 as [| c p Hc Hp IH]; cbn; [reflexivity |].
  rewrite IH. f_equal. unfold ascii_lower.
  replace ((65 <=? c) && (c <=? 90)) with false; [reflexivity |].
  symmetry. apply andb_false_iff. left. apply N.leb_gt.
  unfold ascii_isspace in Hc. apply orb_true_iff in Hc.
  destruct Hc as [Hc | Hc]; apply andb_true_iff in Hc; destruct Hc as [_ Hc];
    apply N.leb_le in Hc; lia.
Qed.

(** X7: ASCII white space before and after an ASCII message does not
    change the intent [detect_intent] gives. *)
Theorem detect_intent_ignores_padding {U : Unicode} (left text right : list N) :
  ascii_blank left -> ascii_blank right -> Forall is_ascii text ->
  detect_intent (left ++ text ++ right) = detect_intent text.
Proof.
  intros Hl Hr Ht.
  assert (Ha : Forall is_ascii (left ++ text ++ right)).
  { apply Forall_app. split; [apply ascii_blank_is_ascii, Hl |].
    apply Forall_app. split; [exact Ht | apply ascii_blank_is_ascii, Hr]. }
  rewrite (detect_intent_ascii U _ Ha), (detect_intent_ascii U _ Ht).
  unfold detect_intent, str_strip. cbn [str_lower isspace ascii_tables].
  rewrite !List.map_app.
  rewrite (ascii_blank_lower left Hl), (ascii_blank_lower right Hr).
  rewrite (strip_with_padded ascii_isspace left _ right Hl Hr). reflexivity.
Qed.

Lemma detect_intent_ignores_padding_witness :
  @detect_intent ascii_tables (cps "  " ++ cps "my bill" ++ [9; 10])
  = @detect_intent ascii_tables (cps "my bill").
Proof.
  apply (@detect_intent_ignores_padding ascii_tables (cps "  ") (cps "my bill") [9; 10]).
  - repeat constructor.
  - repeat constructor.
  - apply forallb_is_ascii. reflexivity.
Defined.

(** ** The log never loses a row *)

Lemma log_message_rows (session_id role message : list N) (env : Env) (w : World) :
  exists new,
    messages (snd (log_message session_id role message env w)) = messages w ++ new
    /\ Forall (fun r => row_role r = role) new.
Proof.
  pose proof (log_message_frame session_id role message env w) as F.
  cbn zeta in F. destruct F as ([M | M] & _).
  - exists []. rewrite M, app_nil_r. split; [reflexivity | constructor].
  - eexists. split; [exact M |]. repeat constructor.
Qed.

Lemma respond_rows {U : Unicode} (message session_id : list N)
    (context : option (gmap (list N) pyval)) (env : Env) (w : World) :
  exists new,
    messages (snd (respond message session_id context env w)) = messages w ++ new
    /\ roles_ok new.
Proof.
  rewrite respond_unfold.
  destruct (log_message_rows session_id (cps "user") message env w) as (n1 & M1 & R1).
  destruct (log_message session_id (cps "user") message env w) as [[[] | e1] w1];
    cbn [snd] in M1.
  - cbn zeta.
    match goal with
    | |- context [log_message session_id (cps "bot") ?r env w1] =>
        destruct (log_message_rows session_id (cps "bot") r env w1) as (n2 & M2 & R2);
        destruct (log_message session_id (cps "bot") r env w1) as [[[] | e2] w2]
    end; cbn [snd messages] in *;
      exists (n1 ++ n2); rewrite M2, M1, app_assoc;
      (split; [reflexivity |]); apply Forall_app; split;
      [ eapply Forall_impl; [exact R1 | intros r Hr; left; exact Hr]
      | eapply Forall_impl; [exact R2 | intros r Hr; right; exact Hr]
      | eapply Forall_impl; [exact R1 | intros r Hr; left; exact Hr]
      | eapply Forall_impl; [exact R2 | intros r Hr; right; exact Hr] ].
  - cbn [snd]. exists n1. split; [exact M1 |].
    eapply Forall_impl; [exact R1 | intros r Hr; left; exact Hr].
Qed.

Lemma after_call_log (env : Env) (w : World) (c : manager_call) :
  messages (after_call env w c) = messages w
  /\ clock_reads (after_call env w c) = clock_reads w.
Proof.
  destruct c as [websocket sid | sid | message sid]; cbn [after_call].
  - rewrite connect_run. destruct (io_fault env (io_steps w)); split; reflexivity.
  - rewrite disconnect_world. split; reflexivity.
  - rewrite send_personal_message_run.
    destruct (active_connections w !! sid);
      [destruct (io_fault env (io_steps w)) |]; split; reflexivity.
Qed.

(** X8: the log is append-only.  After any sequence of calls of [respond]
    and of the manager, returning or raising, the rows the log had are
    still there, in the same order and unchanged, and every row added has
    the role [user] or [bot]. *)
Theorem log_is_append_only {U : Unicode} (env : Env) (calls : list app_call) (w : World) :
  exists new,
    messages (after_app_calls env w calls) = messages w ++ new
    /\ roles_ok new.
Proof.
  revert w. induction calls as [| c calls IH]; intros w.
  - exists []. cbn. rewrite app_nil_r. split; [reflexivity | constructor].
  - cbn [after_app_calls fold_left]. fold (after_app_calls env (after_app_call env w c) calls).
    destruct (IH (after_app_call env w c)) as (n2 & M2 & R2).
    assert (S1 : exists n1, messages (after_app_call env w c) = messages w ++ n1
                            /\ roles_ok n1).
    { destruct c as [message sid context | c']; cbn [after_app_call].
      - apply respond_rows.
      - exists []. rewrite (proj1 (after_call_log env w c')), app_nil_r.
        split; [reflexivity | constructor]. }
    destruct S1 as (n1 & M1 & R1).
    exists (n1 ++ n2). rewrite M2, M1, app_assoc. split; [reflexivity |].
    apply Forall_app. split; assumption.
Qed.

(** X9: the calls of the manager never write to the log and never read the
    clock: after any sequence of [connect], [disconnect] and
    [send_personal_message], returning or raising, both are as they were. *)
Theorem manager_leaves_log (env : Env) (calls : list manager_call) (w : World) :
  messages (after_calls env w calls) = messages w
  /\ clock_reads (after_calls env w calls) = clock_reads w.
Proof.
  revert w. induction calls as [| c calls IH]; intros w; [split; reflexivity |].
  cbn [after_calls fold_left]. fold (after_calls env (after_call env w c) calls).
  destruct (IH (after_call env w c)) as [M C].
  destruct (after_call_log env w c) as [M1 C1].
  split; congruence.
Qed.

(** ** More on the registry *)

Lemma track_other (session_id : list N) (current : option WebSocket)
    (c : manager_call) (returned_ : bool) :
  call_session c <> session_id -> track session_id current (c, returned_) = current.
Proof.
  destruct c as [websocket sid | sid | message sid]; cbn [call_session track];
    intros Hne.
  - destruct returned_; [| reflexivity].
    destruct (decide (sid = session_id)); [contradiction | reflexivity].
  - destruct (decide (sid = session_id)); [contradiction | reflexivity].
  - reflexivity.
Qed.

(** X10: the entries of the registry are independent: after any sequence of
    calls of the manager none of which names a session id, returning or
    raising, the entry of that id is what it was. *)
Theorem registry_entries_are_independent (env : Env) (session_id : list N)
    (calls : list manager_call) (w : World) :
  Forall (fun c => call_session c <> session_id) calls ->
  active_connections (after_calls env w calls) !! session_id
  = active_connections w !! session_id.
Proof.
  intros H. revert w. induction H as [| c calls Hc Hcalls IH]; intros w;
    [reflexivity |].
  cbn [after_calls fold_left]. fold (after_calls env (after_call env w c) calls).
  rewrite IH, after_call_track. apply track_other, Hc.
Qed.

Lemma registry_entries_are_independent_witness :
  active_connections
    (after_calls calm_env busy_world
       [CallConnect {| ws_id := 7 |} (cps "s1"); CallDisconnect (cps "s3");
        CallSend (cps "hi") (cps "s1"); CallDisconnect (cps "s1")])
    !! cps "s2"
  = active_connections busy_world !! cps "s2".
Proof.
  apply (registry_entries_are_independent calm_env (cps "s2")).
  repeat constructor; cbn [call_session]; discriminate.
Defined.

(** X11: [connect] is all or nothing.  When the handshake fails it raises
    and the registry is exactly as it was, a handle registered before for
    the id included; when the handshake succeeds it returns and the registry
    differs only at the id, which now has the new handle. *)
Theorem connect_all_or_nothing (websocket : WebSocket) (session_id : list N)
    (env : Env) (w : World) :
  let r := connect websocket session_id env w in
  (io_fault env (io_steps w) = true ->
   fst r = Raise WebSocketError
   /\ active_connections (snd r) = active_connections w)
  /\ (io_fault env (io_steps w) = false ->
      fst r = Return tt
      /\ active_connections (snd r) !! session_id = Some websocket
      /\ forall other, other <> session_id ->
           active_connections (snd r) !! other = active_connections w !! other)
  /\ outbox (snd r) = outbox w.
Proof.
  cbn zeta. rewrite connect_run. split; [| split].
  - intros ->. split; reflexivity.
  - intros ->. cbn. split; [reflexivity |]. split; [apply lookup_insert_eq |].
    intros other Hne. apply lookup_insert_ne. congruence.
  - destruct (io_fault env (io_steps w)); reflexivity.
Qed.

Lemma connect_all_or_nothing_witness :
  active_connections
    (snd (connect {| ws_id := 9 |} (cps "s1") (fault_at 8) busy_world))
  = active_connections busy_world
  /\ active_connections
       (snd (connect {| ws_id := 9 |} (cps "s1") calm_env busy_world)) !! cps "s1"
     = Some {| ws_id := 9 |}.
Proof.
  pose proof (connect_all_or_nothing {| ws_id := 9 |} (cps "s1") (fault_at 8)
                busy_world) as Hf.
  pose proof (connect_all_or_nothing {| ws_id := 9 |} (cps "s1") calm_env
                busy_world) as Hc.
  cbn zeta in Hf, Hc.
  split.
  - apply (proj1 Hf). reflexivity.
  - apply (proj1 (proj2 Hc)). reflexivity.
Defined.

(** X12: after a [connect] that returned, a send to the id goes to the
    handle of that [connect] and to no other: one frame is added to the
    frames sent, on the new handle, whatever handle the id had before. *)
Theorem send_reaches_the_last_connect (websocket : WebSocket)
    (session_id message : list N) (env : Env) (w w1 : World) :
  connect websocket session_id env w = (Return tt, w1) ->
  io_fault env (io_steps w1) = false ->
  fst (send_personal_message message session_id env w1) = Return PyNone
  /\ outbox (snd (send_personal_message message session_id env w1))
     = outbox w ++ [(websocket, message)].
Proof.
  intros Hc Hs. rewrite send_personal_message_run.
  pose proof (connect_returns _ _ _ _ _ Hc) as Ha.
  assert (E : active_connections w1 !! session_id = Some websocket)
    by (rewrite Ha; apply lookup_insert_eq).
  rewrite E, Hs. cbn.
  rewrite connect_run in Hc. destruct (io_fault env (io_steps w)); inversion Hc.
  split; reflexivity.
Qed.

Lemma send_reaches_the_last_connect_witness :
  outbox (snd (send_personal_message (cps "hi") (cps "s1") calm_env
                 (snd (connect {| ws_id := 9 |} (cps "s1") calm_env busy_world))))
  = [({| ws_id := 9 |}, cps "hi")].
Proof.
  apply (proj2 (send_reaches_the_last_connect {| ws_id := 9 |} (cps "s1") (cps "hi")
                  calm_env busy_world
                  (snd (connect {| ws_id := 9 |} (cps "s1") calm_env busy_world))
                  eq_refl eq_refl)).
Defined.

(** X13: a [connect] that returned followed by a [disconnect] of the same
    id leaves the registry without the id and otherwise as it was: it is
    restored exactly when the id was not registered before, and a handle
    that the [connect] replaced is not put back. *)
Theorem connect_then_disconnect (websocket : WebSocket) (session_id : list N)
    (env : Env) (w w1 : World) :
  connect websocket session_id env w = (Return tt, w1) ->
  active_connections (snd (disconnect session_id env w1))
  = delete session_id (active_connections w)
  /\ (active_connections w !! session_id = None ->
      active_connections (snd (disconnect session_id env w1)) = active_connections w).
Proof.
  intros Hc. apply connect_returns in Hc.
  rewrite disconnect_world. cbn [snd active_connections].
  rewrite Hc, delete_insert_eq. split; [reflexivity |].
  intros E. apply delete_id, E.
Qed.

Lemma connect_then_disconnect_witness :
  active_connections
    (snd (disconnect (cps "s3") calm_env
            (snd (connect {| ws_id := 9 |} (cps "s3") calm_env busy_world))))
  = active_connections busy_world.
Proof.
  apply (proj2 (connect_then_disconnect {| ws_id := 9 |} (cps "s3") calm_env busy_world
                  (snd (connect {| ws_id := 9 |} (cps "s3") calm_env busy_world))
                  eq_refl)).
  apply lookup_insert_None. split; [apply lookup_singleton_ne |]; discriminate.
Defined.

(** X14: after a [disconnect] of an id, a send to the id is dropped: it
    returns [None], sends nothing and changes nothing, whatever was
    registered for the id before, be it the handle of a later connection
    than the one that closed. *)
Theorem send_after_disconnect_is_dropped (session_id message : list N)
    (env : Env) (w : World) :
  let w1 := snd (disconnect session_id env w) in
  send_personal_message message session_id env w1 = (Return PyNone, w1)
  /\ outbox w1 = outbox w.
Proof.
  cbn zeta. rewrite send_personal_message_run, disconnect_world.
  cbn [snd active_connections outbox]. rewrite lookup_delete_eq.
  split; reflexivity.
Qed.

(** ** The entry points *)

Lemma str_field_get (items : list (list N * pyval)) (key dflt s : list N) :
  str_field items key dflt = Some s ->
  assoc_get items key (PyStr dflt) = PyStr s.
Proof.
  unfold str_field. rewrite assoc_get_find.
  destruct (assoc_find items key) as [[] |]; intros H; inversion H; reflexivity.
Qed.

Section EndpointFacts.

Context {U : Unicode}.

Lemma dispatch_fallback (message : list N) (context : gmap (list N) pyval) :
  dispatch (cps "fallback") message context = handle_fallback message context.
Proof.
  unfold dispatch, dict_get.
  destruct (INTENT_HANDLERS !! cps "fallback") as [h |] eqn:E; [| reflexivity].
  apply lookup_entry in E. cbn [In] in E.
  repeat (destruct E as [E | E]; [inversion E; reflexivity |]). destruct E.
Qed.

(** X15: a request whose body is not a JSON object makes [chat_endpoint]
    raise [AttributeError] before anything is logged or sent: unlike the
    stream, the endpoint does not fall back to the raw text. *)
Theorem chat_endpoint_needs_an_object (body : pyval) :
  (forall items, body <> PyDict items) ->
  exists prog,
    chat_endpoint body = Some prog
    /\ forall env w, prog env w = (Raise AttributeError, w).
Proof.
  intros Hn. unfold chat_endpoint.
  destruct body; try (eexists; split; [reflexivity | intros env w; reflexivity]).
  exfalso. eapply Hn. reflexivity.
Qed.

(** X16: the defaults of [chat_endpoint]: for a body that is an object whose
    [message] and [session_id] are strings or absent, the call is
    [respond] on the message, or on the empty string when the field is
    absent, for the session id, or for [guest] when the field is absent, and
    with no context. *)
Theorem chat_endpoint_defaults (items : list (list N * pyval)) (m sid : list N) :
  str_field items (cps "message") [] = Some m ->
  str_field items (cps "session_id") (cps "guest") = Some sid ->
  chat_endpoint (PyDict items) = Some (respond m sid None)
  /\ (~ In (cps "message") (List.map fst items) -> m = [])
  /\ (~ In (cps "session_id") (List.map fst items) -> sid = cps "guest").
Proof.
  intros Hm Hs. split; [| split].
  - unfold chat_endpoint, py_get.
    rewrite (str_field_get _ _ _ _ Hm), (str_field_get _ _ _ _ Hs). reflexivity.
  - intros Hn. apply assoc_find_None in Hn. unfold str_field in Hm.
    rewrite Hn in Hm. inversion Hm. reflexivity.
  - intros Hn. apply assoc_find_None in Hn. unfold str_field in Hs.
    rewrite Hn in Hs. inversion Hs. reflexivity.
Qed.

(** X17: a request without a [message] field is a turn on the empty
    message: when no step on the database fails, [chat_endpoint] returns the
    intent [fallback] with the reply of [handle_fallback], and logs an empty
    row of the user and the row of the bot for the session. *)
Theorem chat_endpoint_without_message (items : list (list N * pyval)) (sid : list N)
    (env : Env) (w : World) :
  ~ In (cps "message") (List.map fst items) ->
  str_field items (cps "session_id") (cps "guest") = Some sid ->
  no_fault env (io_steps w) 8 ->
  exists prog e w',
    chat_endpoint (PyDict items) = Some prog
    /\ prog env w = (Return e, w')
    /\ reply_intent e = FALLBACK
    /\ reply e = handle_fallback [] ∅
    /\ messages w' = messages w ++
         [user_row sid [] (utcnow_isoformat env (clock_reads w));
          bot_row sid (handle_fallback [] ∅) (utcnow_isoformat env (S (clock_reads w)))].
Proof.
  intros Hn Hs Hok.
  assert (Hm : str_field items (cps "message") [] = Some [])
    by (unfold str_field; apply assoc_find_None in Hn; rewrite Hn; reflexivity).
  exists (respond [] sid None).
  destruct (respond_succeeds [] sid None env w Hok) as (e & w' & E).
  exists e, w'.
  split.
  { unfold chat_endpoint, py_get.
    rewrite (str_field_get _ _ _ _ Hm), (str_field_get _ _ _ _ Hs). reflexivity. }
  split; [exact E |].
  apply respond_returns in E. destruct E as (Hr & Hi & _ & Hrows & _).
  assert (Ef : detect_intent [] = FALLBACK).
  { rewrite (detect_intent_ascii U []) by constructor. reflexivity. }
  rewrite Ef in Hr, Hi. cbn [intent FALLBACK] in Hr.
  rewrite dispatch_fallback in Hr. cbn [context_or_empty] in Hr.
  split; [exact Hi |]. split; [exact Hr |].
  rewrite Hrows, Hr. reflexivity.
Qed.

Variable float_repr : Q -> list N.
Variable json_dumps : pyval -> list N.

(** X18: the opening of a stream.  When the handshake fails nothing is
    registered and nothing is sent.  When the handshake and the send
    succeed, the socket is the handle of the session and exactly one frame
    has been sent, on that socket: the welcome with the session id. *)
Theorem websocket_open_welcomes (websocket : WebSocket) (session_id : list N)
    (env : Env) (w : World) :
  let r := websocket_open json_dumps websocket session_id env w in
  (io_fault env (io_steps w) = true ->
   fst r = Raise WebSocketError
   /\ active_connections (snd r) = active_connections w
   /\ outbox (snd r) = outbox w)
  /\ (no_fault env (io_steps w) 2 ->
      fst r = Return PyNone
      /\ active_connections (snd r) !! session_id = Some websocket
      /\ outbox (snd r)
         = outbox w ++ [(websocket, json_dumps (welcome_value session_id))]).
Proof.
  cbn zeta. unfold websocket_open, bind. rewrite connect_run. split.
  - intros ->. repeat split.
  - intros Hok.
    rewrite (no_fault_at env (io_steps w) 2 (io_steps w) Hok) by lia.
    rewrite send_personal_message_run. cbn [active_connections io_steps].
    rewrite lookup_insert_eq.
    rewrite (no_fault_at env (io_steps w) 2 (S (io_steps w)) Hok) by lia.
    cbn. split; [reflexivity |]. split; [apply lookup_insert_eq | reflexivity].
Qed.

(** X19: a turn of the stream on a frame whose message is a string, when no
    step on the database fails: the two rows are logged for the session id
    of the connection whether or not the reply can be delivered.  The frame
    goes to the handle registered for the id at that moment; with no handle
    registered it is dropped and the turn still returns; when the send fails
    the turn raises with both rows logged. *)
Theorem websocket_turn_logs_then_sends (depth : nat) (session_id data message : list N)
    (env : Env) (w : World) :
  frame_message depth data = Return (PyStr message) ->
  no_fault env (io_steps w) 8 ->
  exists prog e,
    websocket_turn float_repr json_dumps depth session_id data = Some prog
    /\ reply e = dispatch (intent (detect_intent message)) message ∅
    /\ reply_intent e = detect_intent message
    /\ messages (snd (prog env w)) = messages w ++
         [user_row session_id message (utcnow_isoformat env (clock_reads w));
          bot_row session_id (reply e) (utcnow_isoformat env (S (clock_reads w)))]
    /\ active_connections (snd (prog env w)) = active_connections w
    /\ match active_connections w !! session_id with
       | None =>
           fst (prog env w) = Return PyNone /\ outbox (snd (prog env w)) = outbox w
       | Some ws =>
           if io_fault env (8 + io_steps w)
           then fst (prog env w) = Raise WebSocketError
                /\ outbox (snd (prog env w)) = outbox w
           else fst (prog env w) = Return PyNone
                /\ outbox (snd (prog env w))
                   = outbox w ++ [(ws, json_dumps (envelope_value float_repr e))]
       end.
Proof.
  intros Hf Hok.
  destruct (respond_succeeds message session_id None env w Hok) as (e & w' & E).
  unfold websocket_turn. rewrite Hf.
  eexists. exists e. split; [reflexivity |].
  pose proof (respond_returns_world _ _ _ _ _ _ _ E) as Hw.
  pose proof (respond_returns _ _ _ _ _ _ _ E) as (Hr & Hi & _).
  split; [exact Hr |]. split; [exact Hi |].
  unfold bind. rewrite E. rewrite send_personal_message_run.
  rewrite Hw. cbn [active_connections io_steps outbox messages].
  destruct (active_connections w !! session_id) as [ws |].
  - destruct (io_fault env (8 + io_steps w)); cbn; repeat split.
  - cbn. repeat split.
Qed.

End EndpointFacts.

Lemma chat_endpoint_needs_an_object_witness :
  exists prog,
    @chat_endpoint ascii_tables (PyList [PyStr (cps "hi")]) = Some prog
    /\ prog calm_env busy_world = (Raise AttributeError, busy_world).
Proof.
  destruct (@chat_endpoint_needs_an_object ascii_tables (PyList [PyStr (cps "hi")]))
    as (prog & E & H); [intros items; discriminate |].
  exists prog. split; [exact E | apply H].
Defined.

Lemma chat_endpoint_defaults_witness :
  @chat_endpoint ascii_tables (PyDict [(cps "message", PyStr (cps "hi"))])
  = Some (@respond ascii_tables (cps "hi") (cps "guest") None).
Proof.
  apply (proj1 (@chat_endpoint_defaults ascii_tables
                  [(cps "message", PyStr (cps "hi"))] (cps "hi") (cps "guest")
                  eq_refl eq_refl)).
Defined.

Lemma chat_endpoint_without_message_witness :
  exists prog e w',
    @chat_endpoint ascii_tables (PyDict []) = Some prog
    /\ prog calm_env empty_world = (Return e, w')
    /\ reply_intent e = FALLBACK
    /\ List.map row_session_id (messages w') = [cps "guest"; cps "guest"].
Proof.
  destruct (@chat_endpoint_without_message ascii_tables [] (cps "guest") calm_env
              empty_world) as (prog & e & w' & E & R & Hi & _ & Hm).
  - intros [].
  - reflexivity.
  - intros i _. reflexivity.
  - exists prog, e, w'. split; [exact E |]. split; [exact R |].
    split; [exact Hi |]. rewrite Hm. reflexivity.
Defined.

Lemma websocket_open_welcomes_witness :
  outbox (snd (websocket_open sample_json_dumps {| ws_id := 9 |} (cps "s1")
                 calm_env busy_world))
  = [({| ws_id := 9 |}, sample_json_dumps (welcome_value (cps "s1")))]
  /\ outbox (snd (websocket_open sample_json_dumps {| ws_id := 9 |} (cps "s1")
                    (fault_at 8) busy_world))
     = [].
Proof.
  pose proof (websocket_open_welcomes sample_json_dumps {| ws_id := 9 |} (cps "s1")
                calm_env busy_world) as Hc.
  pose proof (websocket_open_welcomes sample_json_dumps {| ws_id := 9 |} (cps "s1")
                (fault_at 8) busy_world) as Hf.
  cbn zeta in Hc, Hf. split.
  - apply (proj2 Hc). intros i _. reflexivity.
  - apply (proj1 Hf). reflexivity.
Defined.

Lemma websocket_turn_logs_then_sends_witness :
  exists prog,
    @websocket_turn ascii_tables sample_float_repr sample_json_dumps 1000
      (cps "s3") (cps "hi there") = Some prog
    /\ fst (prog calm_env busy_world) = Return PyNone
    /\ outbox (snd (prog calm_env busy_world)) = []
    /\ length (messages (snd (prog calm_env busy_world))) = 4%nat.
Proof.
  destruct (@websocket_turn_logs_then_sends ascii_tables sample_float_repr
              sample_json_dumps 1000 (cps "s3") (cps "hi there") (cps "hi there")
              calm_env busy_world)
    as (prog & e & E & _ & _ & Hm & _ & Hs).
  - vm_compute. reflexivity.
  - intros i _. reflexivity.
  - exists prog. split; [exact E |].
    assert (L : active_connections busy_world !! cps "s3" = None).
    { apply lookup_insert_None. split; [apply lookup_singleton_ne |]; discriminate. }
    rewrite L in Hs. destruct Hs as [Hr Ho].
    split; [exact Hr |]. split; [exact Ho |]. rewrite Hm. reflexivity.
Defined.

(** ** The log of a run without failures *)

(** X20: when no I/O step ever fails, the log after any sequence of calls
    of [respond] and of the manager is the log before followed by the rows
    of the turns in the order of the calls: for each call of [respond] the
    row of the user with the message, then the row of the bot with the
    reply, both for the session of that call. *)
Theorem log_follows_the_turns {U : Unicode} (env : Env) (calls : list app_call)
    (w : World) :
  (forall n, io_fault env n = false) ->
  exists new,
    messages (after_app_calls env w calls) = messages w ++ new
    /\ List.map row_content new = flat_map expected_rows calls.
Proof.
  intros Hcalm. revert w. induction calls as [| c calls IH]; intros w.
  - exists []. cbn. rewrite app_nil_r. split; reflexivity.
  - cbn [after_app_calls fold_left flat_map].
    fold (after_app_calls env (after_app_call env w c) calls).
    destruct (IH (after_app_call env w c)) as (n2 & M2 & R2).
    destruct c as [message sid context | c']; cbn [after_app_call expected_rows].
    + destruct (respond_succeeds message sid context env w) as (e & w' & E);
        [intros i _; apply Hcalm |].
      cbn [after_app_call] in M2. rewrite E in M2 |- *. cbn [snd] in M2 |- *.
      apply respond_returns in E. destruct E as (Hr & _ & _ & Hm & _).
      eexists. split; [rewrite M2, Hm, <- app_assoc; reflexivity |].
      rewrite List.map_app, R2. cbn [List.map app row_content user_row bot_row
        row_session_id row_role row_message]. rewrite Hr. reflexivity.
    + cbn [after_app_call] in M2.
      exists n2. rewrite M2, (proj1 (after_call_log env w c')).
      split; [reflexivity | exact R2].
Qed.

Lemma log_follows_the_turns_witness :
  exists new,
    messages (@after_app_calls ascii_tables calm_env busy_world
                [CallRespond (cps "hi") (cps "s1") None;
                 CallManager (CallDisconnect (cps "s1"));
                 CallRespond (cps "my bill") (cps "s2") None])
    = messages busy_world ++ new
    /\ List.map (fun r => (row_session_id r, row_role r)) new
       = [(cps "s1", cps "user"); (cps "s1", cps "bot");
          (cps "s2", cps "user"); (cps "s2", cps "bot")].
Proof.
  destruct (@log_follows_the_turns ascii_tables calm_env
              [CallRespond (cps "hi") (cps "s1") None;
               CallManager (CallDisconnect (cps "s1"));
               CallRespond (cps "my bill") (cps "s2") None] busy_world)
    as (new & M & R); [intros n; reflexivity |].
  exists new. split; [exact M |].
  assert (E : List.map (fun r => (row_session_id r, row_role r)) new
              = List.map (fun c => (fst (fst c), snd (fst c))) (List.map row_content new)).
  { rewrite List.map_map. reflexivity. }
  rewrite E, R. reflexivity.
Defined.
